(** * RSI scalping back-test: signal pipeline and order-management policies

    A shallow embedding of [main.py]: the trend classifier
    ([generate_ema_signal]), the signal combiner ([generate_total_signal])
    and the [next] methods of the three strategy classes, followed by the
    properties established about them.

    Prices and indicator values are Python floats.  They are modelled by
    [float]: a rational for a finite value, the two infinities and NaN.
    Finite arithmetic is exact (neither rounding nor overflow is
    modelled); comparisons follow IEEE 754, so every ordered comparison
    with NaN is false. *)

From Stdlib Require Import ZArith QArith List Sorted Bool Lia Lqa.
Import ListNotations.
Open Scope Z_scope.

(* ================================================================= *)
(** ** Floats *)

Module Float.

Inductive float : Type :=
| NaN
| NegInf
| PosInf
| Fin (q : Q).

(** [a <= b] *)
Definition le (a b : float) : bool :=
  match a, b with
  | NaN, _ | _, NaN => false
  | NegInf, _ => true
  | _, PosInf => true
  | Fin p, Fin q => Qle_bool p q
  | _, _ => false
  end.

(** [a < b] *)
Definition lt (a b : float) : bool :=
  match a, b with
  | NaN, _ | _, NaN => false
  | NegInf, NegInf => false
  | NegInf, _ => true
  | PosInf, _ => false
  | Fin _, PosInf => true
  | Fin _, NegInf => false
  | Fin p, Fin q => negb (Qle_bool q p)
  end.

(** [a >= b] and [a > b] *)
Definition ge (a b : float) : bool := le b a.
Definition gt (a b : float) : bool := lt b a.

(** [a == b] *)
Definition eqb (a b : float) : bool :=
  match a, b with
  | NegInf, NegInf | PosInf, PosInf => true
  | Fin p, Fin q => Qeq_bool p q
  | _, _ => false
  end.

Definition is_nan (a : float) : bool :=
  match a with NaN => true | _ => false end.

Definition neg (a : float) : float :=
  match a with
  | NaN => NaN
  | NegInf => PosInf
  | PosInf => NegInf
  | Fin q => Fin (- q)
  end.

Definition add (a b : float) : float :=
  match a, b with
  | NaN, _ | _, NaN => NaN
  | NegInf, PosInf | PosInf, NegInf => NaN
  | NegInf, _ | _, NegInf => NegInf
  | PosInf, _ | _, PosInf => PosInf
  | Fin p, Fin q => Fin (p + q)
  end.

Definition sub (a b : float) : float := add a (neg b).

(** The sign of a rational, as the infinity it sends [PosInf] to;
    zero times an infinity is NaN. *)
Definition scale_inf (q : Q) (pos : bool) : float :=
  match Qnum q with
  | Z0 => NaN
  | Zpos _ => if pos then PosInf else NegInf
  | Zneg _ => if pos then NegInf else PosInf
  end.

Definition mul (a b : float) : float :=
  match a, b with
  | NaN, _ | _, NaN => NaN
  | Fin p, Fin q => Fin (p * q)
  | Fin p, PosInf | PosInf, Fin p => scale_inf p true
  | Fin p, NegInf | NegInf, Fin p => scale_inf p false
  | PosInf, PosInf | NegInf, NegInf => PosInf
  | PosInf, NegInf | NegInf, PosInf => NegInf
  end.

(** Truth value of a float: only zero is false (NaN is true). *)
Definition truthy (a : float) : bool :=
  match a with
  | Fin q => negb (Qeq_bool q 0)
  | _ => true
  end.

(** Python's two-argument [max] and [min]: the first argument is kept
    unless the second compares strictly beyond it. *)
Definition max (a b : float) : float := if gt b a then b else a.
Definition min (a b : float) : float := if lt b a then b else a.

End Float.

Import Float.

(** [x or d] on an optional float ([None] and [0.0] are false). *)
Definition py_or (x : option float) (d : float) : float :=
  match x with
  | None => d
  | Some v => if truthy v then v else d
  end.

(* ================================================================= *)
(** ** Results of partial operations *)

Inductive result (A : Type) : Type :=
| Ok (a : A)
| KeyError (k : Z)
| IndexError (k : Z).

Arguments Ok {A} a.
Arguments KeyError {A} k.
Arguments IndexError {A} k.

Definition bind {A B} (m : result A) (k : A -> result B) : result B :=
  match m with
  | Ok a => k a
  | KeyError i => KeyError i
  | IndexError i => IndexError i
  end.

Notation "x <- m ;; k" := (bind m (fun x => k))
  (at level 61, m at next level, right associativity).

(** A [for] loop over [l] threading a state, stopping at the first
    exception. *)
Fixpoint for_each {S A} (l : list A) (body : S -> A -> result S) (s : S)
  : result S :=
  match l with
  | [] => Ok s
  | a :: rest => s' <- body s a ;; for_each rest body s'
  end.

(** [range(a, b)] *)
Definition range (a b : Z) : list Z :=
  map (fun k => a + Z.of_nat k) (seq 0 (Z.to_nat (b - a))).

(* ================================================================= *)
(** ** Bar series *)

Record Bar : Type := mkBar {
  Open : float;
  High : float;
  Low : float;
  Close : float;
  Volume : float;
  EMA : float;
  RSI : float;
  ATR : float
}.

(** The frame carries the default integer index [0 .. len-1]
    ([reset_index(drop=True)] in [load_and_preprocess_data]). *)
Definition Frame := list Bar.

Definition len {A} (l : list A) : Z := Z.of_nat (length l).

(** [series[i]] on a column with the default integer index: the key is a
    label, so a key outside [0 .. len-1] (a negative one included) raises
    [KeyError]. *)
Definition getitem {A} (col : list A) (i : Z) : result A :=
  if i <? 0 then KeyError i
  else match nth_error col (Z.to_nat i) with
       | Some x => Ok x
       | None => KeyError i
       end.

(** [lst[i] = v] on a Python list: negative positions count from the end,
    anything outside [-len .. len-1] raises [IndexError]. *)
Fixpoint set_nth {A} (l : list A) (n : nat) (v : A) : list A :=
  match l, n with
  | [], _ => []
  | _ :: t, O => v :: t
  | h :: t, S m => h :: set_nth t m v
  end.

Definition list_setitem {A} (l : list A) (i : Z) (v : A) : result (list A) :=
  let j := if i <? 0 then i + len l else i in
  if (0 <=? j) && (j <? len l) then Ok (set_nth l (Z.to_nat j) v)
  else IndexError i.

(* ================================================================= *)
(** ** Trend classifier: [generate_ema_signal] *)

Definition NoTrend : Z := 0.
Definition StrongDowntrend : Z := 1.
Definition StrongUptrend : Z := 2.
Definition Ambiguous : Z := 3.

(** Body of the inner loop; the state is [(upt, dnt)]. *)
Definition window_step (df : Frame) (flags : Z * Z) (i : Z) : result (Z * Z) :=
  let '(upt, dnt) := flags in
  high <- getitem (map High df) i ;;
  ema <- getitem (map EMA df) i ;;
  let dnt := if ge high ema then 0 else dnt in
  low <- getitem (map Low df) i ;;
  ema' <- getitem (map EMA df) i ;;
  let upt := if le low ema' then 0 else upt in
  Ok (upt, dnt).

(** The window of [row]: [range(row-backcandles, row+1)]. *)
Definition window (backcandles row : Z) : list Z :=
  range (row - backcandles) (row + 1).

Definition scan_window (df : Frame) (backcandles row : Z) : result (Z * Z) :=
  for_each (window backcandles row) (window_step df) (1, 1).

(** Body of the outer loop; the state is the list [emasignal]. *)
Definition ema_row (df : Frame) (backcandles : Z) (emasignal : list Z) (row : Z)
  : result (list Z) :=
  flags <- scan_window df backcandles row ;;
  let '(upt, dnt) := flags in
  if (upt =? 1) && (dnt =? 1) then list_setitem emasignal row Ambiguous
  else if upt =? 1 then list_setitem emasignal row StrongUptrend
  else if dnt =? 1 then list_setitem emasignal row StrongDowntrend
  else Ok emasignal.

(** The column [EMAsignal] computed by [generate_ema_signal]. *)
Definition generate_ema_signal (df : Frame) (backcandles : Z) : result (list Z) :=
  for_each (range (backcandles - 1) (len df)) (ema_row df backcandles)
           (repeat 0 (length df)).

(* ================================================================= *)
(** ** Signal combiner: [generate_total_signal] *)

(** A row of the frame once [df['EMAsignal'] = emasignal] has been
    executed. *)
Record SigBar : Type := mkSigBar {
  bar : Bar;
  EMAsignal : Z
}.

(** A row of the frame returned by [generate_total_signal]. *)
Record Row : Type := mkRow {
  sbar : SigBar;
  TotSignal : Z
}.

Definition with_column {A B C} (mk : A -> B -> C) (df : list A) (col : list B)
  : list C :=
  map (fun p => mk (fst p) (snd p)) (combine df col).

(** [c1 and c2], the right operand being evaluated only when the left
    one holds. *)
Definition and_then (c1 : result bool) (c2 : result bool) : result bool :=
  b <- c1 ;; if b then c2 else Ok false.

(** Body of the loop of [generate_total_signal]; the state is the list
    [TotSignal]. *)
Definition tot_row (df : list SigBar) (rsi_oversold rsi_overbought : float)
    (tot : list Z) (row : Z) : result (list Z) :=
  tot <- list_setitem tot row 0 ;;
  sell <- and_then (e <- getitem (map EMAsignal df) row ;; Ok (e =? 1))
                   (r <- getitem (map (fun s => RSI (bar s)) df) row ;;
                    Ok (ge r rsi_overbought)) ;;
  tot <- (if sell then list_setitem tot row 1 else Ok tot) ;;
  buy <- and_then (e <- getitem (map EMAsignal df) row ;; Ok (e =? 2))
                  (r <- getitem (map (fun s => RSI (bar s)) df) row ;;
                   Ok (le r rsi_oversold)) ;;
  if buy then list_setitem tot row 2 else Ok tot.

(** The list [TotSignal] as it stands when the loop ends. *)
Definition tot_signals (df : list SigBar) (rsi_oversold rsi_overbought : float)
  : result (list Z) :=
  for_each (range 0 (len df)) (tot_row df rsi_oversold rsi_overbought)
           (repeat 0 (length df)).

(** A row has a missing value when one of its float columns is NaN (the
    two signal columns hold integers). *)
Definition has_nan (b : Bar) : bool :=
  is_nan (Open b) || is_nan (High b) || is_nan (Low b) || is_nan (Close b)
  || is_nan (Volume b) || is_nan (EMA b) || is_nan (RSI b) || is_nan (ATR b).

(** [df.dropna(inplace=True)] followed by [df.reset_index(drop=True)]. *)
Definition dropna (df : list Row) : list Row :=
  filter (fun r => negb (has_nan (bar (sbar r)))) df.

Definition generate_total_signal (df : list SigBar)
    (rsi_oversold rsi_overbought : float) : result (list Row) :=
  tot <- tot_signals df rsi_oversold rsi_overbought ;;
  Ok (dropna (with_column mkRow df tot)).

(** Steps 3 and 4 of [main]: the frame of indicators goes through the
    classifier, then through the combiner. *)
Definition signal_pipeline (df : Frame) (backcandles : Z)
    (rsi_oversold rsi_overbought : float) : result (list Row) :=
  emasignal <- generate_ema_signal df backcandles ;;
  generate_total_signal (with_column mkSigBar df emasignal)
                        rsi_oversold rsi_overbought.

(** The signal a row ends up with, as a function of its trend label and
    momentum value. *)
Definition combined (e : Z) (rsi rsi_oversold rsi_overbought : float) : Z :=
  if (e =? 2) && le rsi rsi_oversold then 2
  else if (e =? 1) && ge rsi rsi_overbought then 1
  else 0.

(* ================================================================= *)
(** ** Order-management policies: the three [Strategy] classes *)

(** What [next] reads from the broker and from the data on one bar. *)
Record Trade : Type := mkTrade {
  is_long : bool;
  sl : option float
}.

Record View : Type := mkView {
  signal1 : Z;                  (* last value of [self.signal1] *)
  close_last : float;           (* [self.data.Close[-1]] *)
  atr_last : float;             (* [self.data.ATR[-1]] *)
  trades : list Trade;          (* [self.trades] *)
  closed_trades : list float    (* [pl] of each of [self.closed_trades] *)
}.

(** The calls [next] makes on the broker; a trade is named by its
    position in [self.trades]. *)
Inductive Call : Type :=
| buy (sl tp : option float) (size : float)
| sell (sl tp : option float) (size : float)
| set_sl (k : nat) (v : float)
| close_trade (k : nat).

Definition is_entry (c : Call) : bool :=
  match c with
  | buy _ _ _ | sell _ _ _ => true
  | _ => false
  end.

(** The calls of one bar are made in order; the first one that raises
    ends [next].  The result is the calls made and whether one raised. *)
Fixpoint perform (broker : Call -> bool) (plan : list Call) : list Call * bool :=
  match plan with
  | [] => ([], false)
  | c :: rest =>
      if broker c then
        let '(done, raised) := perform broker rest in (c :: done, raised)
      else ([c], true)
  end.

Definition initsize : float := Fin (2 # 10).
Definition pips45 : float := Fin (45 # 10000).

(** [closed_trades[-1].pl], when there is a closed trade. *)
Definition last_pl (v : View) : option float :=
  match rev (closed_trades v) with
  | [] => None
  | pl :: _ => Some pl
  end.

Definition no_trade (v : View) : bool := len (trades v) =? 0.

(** *** Strategy 1: fixed stop and target, size doubled after a loss *)

Inductive Sizing : Type := Doubled | Rebased | Kept.

(** Which branch of the sizing [if]/[elif] is taken. *)
Definition sizing (v : View) : Sizing :=
  if (signal1 v >? 0) && no_trade v
     && match last_pl v with Some pl => lt pl (Fin 0) | None => false end
  then Doubled
  else if match last_pl v with Some pl => gt pl (Fin 0) | None => false end
  then Rebased
  else Kept.

Definition martingale (mysize : float) (v : View) : float :=
  match sizing v with
  | Doubled => mul mysize (Fin 2)
  | Rebased => initsize
  | Kept => mysize
  end.

(** Each [next] returns the value of [self.mysize] when it ends and the
    calls it makes, in order. *)
Definition Strategy1_next (mysize : float) (v : View) : float * list Call :=
  let mysize := martingale mysize v in
  if (signal1 v =? 2) && no_trade v then
    let sl1 := sub (close_last v) pips45 in
    let tp1 := add (close_last v) pips45 in
    (mysize, [buy (Some sl1) (Some tp1) mysize])
  else if (signal1 v =? 1) && no_trade v then
    let sl1 := add (close_last v) pips45 in
    let tp1 := sub (close_last v) pips45 in
    (mysize, [sell (Some sl1) (Some tp1) mysize])
  else (mysize, []).

(** *** Strategy 2: stop and target scaled by the ATR *)

Definition Strategy2_next (mysize : float) (v : View) : float * list Call :=
  let slatr := mul (Fin (13 # 10)) (atr_last v) in
  let TPSLRatio := Fin (13 # 10) in
  if (signal1 v =? 2) && no_trade v then
    let sl1 := sub (close_last v) slatr in
    let tp1 := add (close_last v) (mul slatr TPSLRatio) in
    (mysize, [buy (Some sl1) (Some tp1) mysize])
  else if (signal1 v =? 1) && no_trade v then
    let sl1 := add (close_last v) slatr in
    let tp1 := sub (close_last v) (mul slatr TPSLRatio) in
    (mysize, [sell (Some sl1) (Some tp1) mysize])
  else (mysize, []).

(** *** Strategy 3: trailing stop scaled by the ATR *)

Definition trail (atr : float) : float := mul (Fin (15 # 10)) atr.

(** The value assigned to [trade.sl] on a long and on a short trade. *)
Definition long_stop (old : option float) (close atr : float) : float :=
  max (py_or old NegInf) (sub close (trail atr)).

Definition short_stop (old : option float) (close atr : float) : float :=
  min (py_or old PosInf) (add close (trail atr)).

(** Body of [for trade in self.trades]. *)
Definition manage (v : View) (k : nat) (trade : Trade) : list Call :=
  if is_long trade then
    set_sl k (long_stop (sl trade) (close_last v) (atr_last v))
    :: (if signal1 v =? 1 then [close_trade k] else [])
  else
    set_sl k (short_stop (sl trade) (close_last v) (atr_last v))
    :: (if signal1 v =? 2 then [close_trade k] else []).

Fixpoint manage_all (v : View) (k : nat) (ts : list Trade) : list Call :=
  match ts with
  | [] => []
  | t :: rest => manage v k t ++ manage_all v (S k) rest
  end.

(** [trade.close()] places an order, so [len(self.trades)] is the same
    after the loop as before it. *)
Definition Strategy3_next (mysize : float) (v : View) : float * list Call :=
  let sltr := trail (atr_last v) in
  let managed := manage_all v 0 (trades v) in
  if (signal1 v =? 2) && no_trade v then
    let sl1 := sub (close_last v) sltr in
    (mysize, managed ++ [buy (Some sl1) None mysize])
  else if (signal1 v =? 1) && no_trade v then
    let sl1 := add (close_last v) sltr in
    (mysize, managed ++ [sell (Some sl1) None mysize])
  else (mysize, managed).

Inductive Variant : Type := FixedSLTP | ATRBased | TrailingStop.

Definition next (var : Variant) : float -> View -> float * list Call :=
  match var with
  | FixedSLTP => Strategy1_next
  | ATRBased => Strategy2_next
  | TrailingStop => Strategy3_next
  end.

(** One bar of the replay: [next] runs against a broker that lets a call
    return ([true]) or makes it raise ([false]).  The result is the value
    of [self.mysize] after the bar, the calls made and whether the bar
    ended on an exception. *)
Definition on_bar (var : Variant) (broker : Call -> bool) (mysize : float)
    (v : View) : float * (list Call * bool) :=
  let '(mysize', plan) := next var mysize v in
  (mysize', perform broker plan).

(* ================================================================= *)
(** ** The replay, as far as the policies depend on it *)

(** The broker belongs to the back-testing library.  Between two calls of
    [next] it may close any trade and it settles the orders it was given;
    what the policies rely on is that a trade is opened only for an entry
    order, one trade at most for each. *)
Definition broker_settles (before : list Trade) (made : list Call)
    (after : list Trade) : Prop :=
  (length after <= length before + length (filter is_entry made))%nat.

(** States of a replay at the start of a bar: the value of [self.mysize]
    and the open trades.  A bar that ends on an exception ends the
    replay. *)
Inductive reachable (var : Variant) : float -> list Trade -> Prop :=
| reach_start : reachable var initsize []
| reach_bar (mysize : float) (v : View) (broker : Call -> bool)
    (after : list Trade) :
    reachable var mysize (trades v) ->
    snd (snd (on_bar var broker mysize v)) = false ->
    broker_settles (trades v) (fst (snd (on_bar var broker mysize v))) after ->
    reachable var (fst (on_bar var broker mysize v)) after.

(** [self.mysize] of strategy 1 after the bars [views], in order. *)
Definition size_after (views : list View) : float :=
  fold_left martingale views initsize.

(** Number of bars that doubled the size since the last bar that set it
    back to [initsize] (or since the start). *)
Definition doublings (views : list View) : nat :=
  fold_left (fun d v => match sizing v with
                        | Doubled => S d
                        | Rebased => O
                        | Kept => d
                        end) views O.

(** Run length of losing trades that ends the list of closed trades. *)
Fixpoint losing_prefix (pls : list float) : nat :=
  match pls with
  | [] => O
  | pl :: rest => if lt pl (Fin 0) then S (losing_prefix rest) else O
  end.

Definition losing_run (v : View) : nat := losing_prefix (rev (closed_trades v)).

(** The broker takes a stop only if it is a price: [0 < price < inf]. *)
Definition is_price (p : float) : bool := lt (Fin 0) p && lt p PosInf.

(** Stops held by one long trade over the bars [(close, atr)] of its
    life: the trade holds the last value assigned to [trade.sl], and an
    assignment the broker refuses ends the replay. *)
Fixpoint long_stops (s : float) (bars : list (float * float)) : list float :=
  match bars with
  | [] => [s]
  | (close, atr) :: rest =>
      let s' := long_stop (Some s) close atr in
      if is_price s' then s :: long_stops s' rest else [s]
  end.

Fixpoint short_stops (s : float) (bars : list (float * float)) : list float :=
  match bars with
  | [] => [s]
  | (close, atr) :: rest =>
      let s' := short_stop (Some s) close atr in
      if is_price s' then s :: short_stops s' rest else [s]
  end.


(* ================================================================= *)
(** ** Loading and trimming the frame *)

(** [load_and_preprocess_data], from the rows read from the file on: the
    rows whose volume is zero are removed and the index is reset.  The
    rows may carry any columns; [volume] reads the column [Volume].
    Missing values are only reported. *)
Definition load_and_preprocess_data {R} (volume : R -> float) (csv : list R)
  : list R :=
  filter (fun r => negb (eqb (volume r) (Fin 0))) csv.

(** A bound of a slice, brought within [0 .. n]: a negative bound counts
    from the end. *)
Definition slice_bound (n i : Z) : Z :=
  if i <? 0 then Z.max 0 (i + n) else Z.min i n.

(** [df[a:b]]: the rows at positions [a .. b-1]. *)
Definition py_slice {R} (df : list R) (a b : Z) : list R :=
  let a' := slice_bound (len df) a in
  let b' := slice_bound (len df) b in
  firstn (Z.to_nat (b' - a')) (skipn (Z.to_nat a') df).

Definition prepare_backtest_data {R} (df : list R) (months : Z) : list R :=
  let startid := 0 in
  let total_periods := 24 * 4 * months in
  py_slice df startid (startid + total_periods).

(* ================================================================= *)
(** ** Vocabulary of the properties *)

(** Some bar of the window of [row] has its low at or below the
    reference line; some bar has its high at or above it. *)
Definition low_touches (df : Frame) (backcandles row : Z) : Prop :=
  exists i b, row - backcandles <= i <= row /\ getitem df i = Ok b
              /\ le (Low b) (EMA b) = true.

Definition high_touches (df : Frame) (backcandles row : Z) : Prop :=
  exists i b, row - backcandles <= i <= row /\ getitem df i = Ok b
              /\ ge (High b) (EMA b) = true.

(** The same test on the bar at one index, as a boolean. *)
Definition at_index (test : Bar -> bool) (df : Frame) (i : Z) : bool :=
  match getitem df i with
  | Ok b => test b
  | _ => false
  end.

Definition low_at_or_below (b : Bar) : bool := le (Low b) (EMA b).
Definition high_at_or_above (b : Bar) : bool := ge (High b) (EMA b).

(** The label that goes with a pair of flags. *)
Definition label_of (upt dnt : Z) : Z :=
  if (upt =? 1) && (dnt =? 1) then Ambiguous
  else if upt =? 1 then StrongUptrend
  else if dnt =? 1 then StrongDowntrend
  else NoTrend.

(** The signal of a row of the frame that carries [EMAsignal]. *)
Definition signal_of (rsi_oversold rsi_overbought : float) (s : SigBar) : Z :=
  combined (EMAsignal s) (RSI (bar s)) rsi_oversold rsi_overbought.

(** Rows whose momentum value or reference average is undefined. *)
Definition undefined_indicator (b : Bar) : bool :=
  is_nan (RSI b) || is_nan (EMA b).

(** [2 ** d] *)
Fixpoint two_to (d : nat) : Q :=
  match d with
  | O => 1
  | S d' => 2 * two_to d'
  end.

(* ================================================================= *)
(** ** Sample data *)

(** A bar given by its high, low, reference average and momentum. *)
Definition sample_bar (high low ema rsi : float) : Bar :=
  mkBar low high low high (Fin 1) ema rsi (Fin (1 # 1000)).

(** A bar wholly above its reference line, one wholly below it, and one
    whose reference average is undefined. *)
Definition bar_above : Bar :=
  sample_bar (Fin (12 # 10)) (Fin (11 # 10)) (Fin 1) (Fin 5).
Definition bar_below : Bar :=
  sample_bar (Fin (9 # 10)) (Fin (8 # 10)) (Fin 1) (Fin 95).
Definition bar_warmup : Bar :=
  sample_bar (Fin (12 # 10)) (Fin (11 # 10)) NaN (Fin 5).

Definition eight_bars : Frame := repeat bar_above 8.
Definition three_bars : Frame := [bar_above; bar_above; bar_above].
Definition warmup_bars : Frame := [bar_warmup; bar_warmup; bar_above].

(** Three bars of a replay of strategy 1: a Buy signal with nothing open,
    the trade it opened still open, and that trade closed at a loss on a
    bar without signal. *)
Definition long_trade : Trade := mkTrade true (Some (Fin (10955 # 10000))).

Definition view_entry : View :=
  mkView 2 (Fin (11 # 10)) (Fin (1 # 1000)) [] [].
Definition view_open : View :=
  mkView 0 (Fin (11 # 10)) (Fin (1 # 1000)) [long_trade] [].
Definition view_lost : View :=
  mkView 0 (Fin (109 # 100)) (Fin (1 # 1000)) [] [Fin (- (9 # 10000))].

(** A Buy signal right after a losing trade. *)
Definition view_after_loss : View :=
  mkView 2 (Fin (109 # 100)) (Fin (1 # 1000)) [] [Fin (- (9 # 10000))].

(** A broker on which every call raises, and one on which none does. *)
Definition refusing : Call -> bool := fun _ => false.
Definition accepting : Call -> bool := fun _ => true.

Definition ten_bars : Frame := repeat bar_above 10.

(* ================================================================= *)
(** ** Further vocabulary *)

(** The values the column [EMAsignal] may hold. *)
Definition is_label (x : Z) : Prop := 0 <= x <= 3.

(** The label the scan of the window of [row] leads to (0 when the scan
    raises). *)
Definition window_label (df : Frame) (backcandles row : Z) : Z :=
  match scan_window df backcandles row with
  | Ok (upt, dnt) => label_of upt dnt
  | _ => NoTrend
  end.
(* ================================================================= *)
(** ** Ranges, lookups and list updates *)

Section Lists.

Context {A : Type}.

Lemma range_nil (a b : Z) : b <= a -> range a b = [].
Proof.
  intros H. unfold range.
  replace (Z.to_nat (b - a)) with O by lia. reflexivity.
Qed.

Lemma range_cons (a b : Z) : a < b -> range a b = a :: range (a + 1) b.
Proof.
  intros H. unfold range.
  replace (Z.to_nat (b - a)) with (S (Z.to_nat (b - (a + 1)))) by lia.
  cbn [seq map]. f_equal; [lia|].
  rewrite <- seq_shift, map_map.
  apply map_ext. intros k. lia.
Qed.

Lemma in_range (a b i : Z) : In i (range a b) <-> a <= i < b.
Proof.
  unfold range. rewrite in_map_iff. split.
  - intros (k & <- & Hk). apply in_seq in Hk. lia.
  - intros H. exists (Z.to_nat (i - a)). split; [lia|].
    apply in_seq. lia.
Qed.

Lemma getitem_ok (col : list A) (i : Z) (x : A) :
  getitem col i = Ok x <-> 0 <= i /\ nth_error col (Z.to_nat i) = Some x.
Proof.
  unfold getitem. destruct (i <? 0) eqn:Hi.
  - apply Z.ltb_lt in Hi. split; [discriminate | lia].
  - apply Z.ltb_ge in Hi.
    destruct (nth_error col (Z.to_nat i)) as [y|]; split.
    + intros [= ->]. auto.
    + intros [_ [= ->]]. reflexivity.
    + discriminate.
    + intros [_ [=]].
  Qed.

Lemma getitem_in_bounds (col : list A) (i : Z) :
  0 <= i < len col -> exists x, getitem col i = Ok x.
Proof.
  intros H. unfold len in H.
  destruct (nth_error col (Z.to_nat i)) as [x|] eqn:E.
  - exists x. apply getitem_ok. split; [lia | exact E].
  - apply nth_error_None in E. lia.
Qed.

Lemma getitem_bounds (col : list A) (i : Z) (x : A) :
  getitem col i = Ok x -> 0 <= i < len col.
Proof.
  intros H. apply getitem_ok in H as [H0 H].
  assert (Z.to_nat i < length col)%nat
    by (apply nth_error_Some; rewrite H; discriminate).
  unfold len. lia.
Qed.

Lemma getitem_negative (col : list A) (i : Z) :
  i < 0 -> getitem col i = KeyError i.
Proof.
  intros H. unfold getitem.
  apply Z.ltb_lt in H. rewrite H. reflexivity.
Qed.

Lemma set_nth_length (l : list A) (n : nat) (v : A) :
  length (set_nth l n v) = length l.
Proof.
  revert n. induction l as [|h t IH]; intros [|n]; cbn; auto.
Qed.

Lemma set_nth_same (l : list A) (n : nat) (v : A) :
  (n < length l)%nat -> nth_error (set_nth l n v) n = Some v.
Proof.
  revert n. induction l as [|h t IH]; intros [|n] H; cbn in *; try lia; auto.
  apply IH. lia.
Qed.

Lemma set_nth_other (l : list A) (n m : nat) (v : A) :
  n <> m -> nth_error (set_nth l n v) m = nth_error l m.
Proof.
  revert n m. induction l as [|h t IH]; intros [|n] [|m] H; cbn; auto.
  contradiction.
Qed.

Lemma set_nth_twice (l : list A) (n : nat) (v w : A) :
  set_nth (set_nth l n v) n w = set_nth l n w.
Proof.
  revert n. induction l as [|h t IH]; intros [|n]; cbn; auto.
  now rewrite IH.
Qed.

Lemma list_setitem_in_bounds (l : list A) (i : Z) (v : A) :
  0 <= i < len l -> list_setitem l i v = Ok (set_nth l (Z.to_nat i) v).
Proof.
  intros H. unfold list_setitem.
  destruct (i <? 0) eqn:Hi; [apply Z.ltb_lt in Hi; lia|].
  replace (0 <=? i) with true by (symmetry; apply Z.leb_le; lia).
  replace (i <? len l) with true by (symmetry; apply Z.ltb_lt; lia).
  reflexivity.
Qed.

End Lists.

Lemma getitem_map {A B} (f : A -> B) (l : list A) (i : Z) (x : A) :
  getitem l i = Ok x -> getitem (map f l) i = Ok (f x).
Proof.
  intros H. apply getitem_ok in H as [H0 H]. apply getitem_ok.
  split; [assumption|]. now apply map_nth_error.
Qed.

Lemma getitem_repeat {A} (x : A) (n : nat) (i : Z) :
  0 <= i < Z.of_nat n -> getitem (repeat x n) i = Ok x.
Proof.
  intros H. apply getitem_ok. split; [lia|].
  rewrite nth_error_repeat; [reflexivity | lia].
Qed.

(** An invariant of the state is kept by a loop whose body keeps it. *)
Lemma for_each_invariant {S A} (P : S -> Prop) (body : S -> A -> result S)
    (l : list A) :
  (forall s a s', In a l -> P s -> body s a = Ok s' -> P s') ->
  forall s s', P s -> for_each l body s = Ok s' -> P s'.
Proof.
  induction l as [|a rest IH]; intros Hbody s s' Hs Hrun; cbn in Hrun.
  - now injection Hrun as <-.
  - destruct (body s a) as [s1| |] eqn:E; cbn in Hrun; try discriminate.
    apply (IH (fun s0 a0 s0' Hin => Hbody s0 a0 s0' (or_intror Hin)) s1);
      [|assumption].
    apply (Hbody s a); auto. now left.
Qed.

(* ================================================================= *)
(** ** The trend classifier *)

Lemma window_step_in_bounds (df : Frame) (upt dnt i : Z) (b : Bar) :
  getitem df i = Ok b ->
  window_step df (upt, dnt) i =
    Ok (if low_at_or_below b then 0 else upt,
        if high_at_or_above b then 0 else dnt).
Proof.
  intros H. unfold window_step.
  rewrite (getitem_map High _ _ _ H), (getitem_map EMA _ _ _ H),
          (getitem_map Low _ _ _ H).
  reflexivity.
Qed.

Lemma scan_in_bounds (df : Frame) (l : list Z) :
  Forall (fun i => 0 <= i < len df) l ->
  forall upt dnt,
    for_each l (window_step df) (upt, dnt) =
      Ok (if existsb (at_index low_at_or_below df) l then 0 else upt,
          if existsb (at_index high_at_or_above df) l then 0 else dnt).
Proof.
  induction 1 as [|i l Hi _ IH]; intros upt dnt; [reflexivity|].
  destruct (getitem_in_bounds df i Hi) as [b Hb].
  cbn [for_each existsb]. rewrite (window_step_in_bounds _ _ _ _ _ Hb).
  cbn [bind]. rewrite IH. unfold at_index at 3 5. rewrite Hb.
  destruct (low_at_or_below b), (high_at_or_above b); cbn [orb];
    repeat match goal with |- context [if ?c then 0 else 0] =>
             destruct c end; reflexivity.
Qed.

Lemma window_in_bounds (df : Frame) (backcandles row : Z) :
  backcandles <= row < len df ->
  Forall (fun i => 0 <= i < len df) (window backcandles row).
Proof.
  intros H. apply Forall_forall. intros i Hi.
  apply in_range in Hi. lia.
Qed.

Lemma touches_iff (test : Bar -> bool) (df : Frame) (backcandles row : Z) :
  existsb (at_index test df) (window backcandles row) = true <->
  exists i b, row - backcandles <= i <= row /\ getitem df i = Ok b
              /\ test b = true.
Proof.
  rewrite existsb_exists. unfold at_index, window. split.
  - intros (i & Hi & Ht). apply in_range in Hi.
    destruct (getitem df i) as [b| |] eqn:E; try discriminate.
    exists i, b. repeat split; auto; lia.
  - intros (i & b & Hi & Hb & Ht). exists i. split.
    + apply in_range. lia.
    + now rewrite Hb.
Qed.

(** The first row the outer loop visits is [backcandles - 1]; its window
    starts at [-1], which is no label of the index. *)
Lemma first_row_raises (df : Frame) (backcandles : Z) (emasignal : list Z) :
  0 <= backcandles ->
  ema_row df backcandles emasignal (backcandles - 1) = KeyError (-1).
Proof.
  intros H. unfold ema_row, scan_window, window.
  replace (backcandles - 1 - backcandles) with (-1) by lia.
  rewrite range_cons by lia. reflexivity.
Qed.

Lemma generate_ema_signal_raises (df : Frame) (backcandles : Z) :
  0 <= backcandles <= len df ->
  generate_ema_signal df backcandles = KeyError (-1).
Proof.
  intros H. unfold generate_ema_signal.
  rewrite range_cons by lia. cbn [for_each].
  rewrite first_row_raises by lia. reflexivity.
Qed.



(** C1.  With eight bars and [backcandles = 8] the first row visited is
    row 7; its window is [-1 .. 7], and index [-1] is no bar of the
    series: the lookup raises and so does [generate_ema_signal]. *)
Theorem first_window_starts_before_series :
  window 8 7 = [-1; 0; 1; 2; 3; 4; 5; 6; 7]
  /\ getitem (map High eight_bars) (-1) = KeyError (-1)
  /\ ema_row eight_bars 8 (repeat 0 8%nat) 7 = KeyError (-1)
  /\ generate_ema_signal eight_bars 8 = KeyError (-1).
Proof. repeat split; reflexivity. Qed.

(** X20.  The body of the outer loop, on a row whose window lies within
    the series and whose entry is still 0: the uptrend flag is cleared
    exactly when some bar of the window has its low at or below the
    reference line, the downtrend flag exactly when some bar has its high
    at or above it, and the label written is Ambiguous when both flags
    survive, StrongUptrend when only the uptrend flag does,
    StrongDowntrend when only the downtrend flag does, and none (the
    entry stays NoTrend) otherwise. *)
Theorem trend_label_of_window (df : Frame) (backcandles row : Z)
    (emasignal : list Z) :
  0 <= backcandles ->
  backcandles <= row < len df ->
  length emasignal = length df ->
  getitem emasignal row = Ok NoTrend ->
  exists upt dnt out,
    scan_window df backcandles row = Ok (upt, dnt)
    /\ (upt = 0 <-> low_touches df backcandles row)
    /\ (upt = 1 <-> ~ low_touches df backcandles row)
    /\ (dnt = 0 <-> high_touches df backcandles row)
    /\ (dnt = 1 <-> ~ high_touches df backcandles row)
    /\ ema_row df backcandles emasignal row = Ok out
    /\ getitem out row = Ok (label_of upt dnt)
    /\ (label_of upt dnt = Ambiguous <-> upt = 1 /\ dnt = 1)
    /\ (label_of upt dnt = StrongUptrend <-> upt = 1 /\ dnt = 0)
    /\ (label_of upt dnt = StrongDowntrend <-> upt = 0 /\ dnt = 1)
    /\ (label_of upt dnt = NoTrend <-> upt = 0 /\ dnt = 0).
Proof.
  intros Hbc Hrow Hlen Hzero.
  pose proof (scan_in_bounds df _ (window_in_bounds df backcandles row Hrow) 1 1)
    as Hscan.
  pose proof (touches_iff low_at_or_below df backcandles row) as Hlow.
  pose proof (touches_iff high_at_or_above df backcandles row) as Hhigh.
  fold (low_touches df backcandles row) in Hlow.
  fold (high_touches df backcandles row) in Hhigh.
  assert (Hr : 0 <= row < len emasignal) by (unfold len in *; lia).
  set (lo := existsb (at_index low_at_or_below df) (window backcandles row)) in *.
  set (hi := existsb (at_index high_at_or_above df) (window backcandles row)) in *.
  exists (if lo then 0 else 1), (if hi then 0 else 1).
  assert (Hwrite : forall v, exists out,
             list_setitem emasignal row v = Ok out /\ getitem out row = Ok v).
  { intros v. eexists. split; [apply list_setitem_in_bounds; exact Hr|].
    apply getitem_ok. split; [lia|]. apply set_nth_same. unfold len in Hr. lia. }
  assert (Hout : exists out,
             ema_row df backcandles emasignal row = Ok out
             /\ getitem out row
                = Ok (label_of (if lo then 0 else 1) (if hi then 0 else 1))).
  { unfold ema_row, scan_window. fold (window backcandles row).
    rewrite Hscan. cbn [bind]. unfold label_of.
    destruct lo, hi; cbn [Z.eqb Pos.eqb andb]; try apply Hwrite.
    exists emasignal. split; [reflexivity | exact Hzero]. }
  destruct Hout as (out & Hrun & Hget).
  exists out. unfold scan_window. fold (window backcandles row).
  split; [exact Hscan|].
  assert (Hl : lo = true <-> low_touches df backcandles row) by exact Hlow.
  assert (Hh : hi = true <-> high_touches df backcandles row) by exact Hhigh.
  clearbody lo hi. clear Hscan Hlow Hhigh.
  unfold label_of, Ambiguous, StrongUptrend, StrongDowntrend, NoTrend.
  assert (Hl' : lo = false <-> ~ low_touches df backcandles row)
    by (rewrite <- Hl; destruct lo; intuition congruence).
  assert (Hh' : hi = false <-> ~ high_touches df backcandles row)
    by (rewrite <- Hh; destruct hi; intuition congruence).
  destruct lo, hi; cbn [Z.eqb Pos.eqb andb];
    repeat match goal with
           | |- _ /\ _ => split
           | |- _ <-> _ => split; intros
           end;
    try assumption; try reflexivity; try lia; try discriminate;
    try (apply Hl; reflexivity); try (apply Hh; reflexivity);
    try (apply Hl'; reflexivity); try (apply Hh'; reflexivity);
    try (exfalso; intuition congruence).
Qed.

(** The loop body keeps the length of [emasignal]. *)
Lemma ema_row_length (df : Frame) (backcandles : Z) (s s' : list Z) (row : Z) :
  ema_row df backcandles s row = Ok s' -> length s' = length s.
Proof.
  unfold ema_row.
  destruct (scan_window df backcandles row) as [[upt dnt]| |]; cbn [bind];
    try discriminate.
  assert (Hset : forall v, list_setitem s row v = Ok s' ->
                           length s' = length s).
  { intros v. unfold list_setitem.
    destruct ((0 <=? _) && (_ <? len s)); [|discriminate].
    intros [= <-]. apply set_nth_length. }
  destruct ((upt =? 1) && (dnt =? 1)); [apply Hset|].
  destruct (upt =? 1); [apply Hset|].
  destruct (dnt =? 1); [apply Hset|].
  now intros [= <-].
Qed.

Lemma generate_ema_signal_length (df : Frame) (backcandles : Z)
    (emasignal : list Z) :
  generate_ema_signal df backcandles = Ok emasignal ->
  length emasignal = length df.
Proof.
  unfold generate_ema_signal. intros Hrun.
  apply (for_each_invariant (fun t => length t = length df)
           (ema_row df backcandles) _) with (2 := repeat_length 0 (length df))
                                            (3 := Hrun).
  intros t row t' _ Ht Hstep. rewrite <- Ht.
  now apply ema_row_length with (1 := Hstep).
Qed.

(* ================================================================= *)
(** ** The signal combiner *)

Section Combiner.

Variables (df : list SigBar) (rsi_oversold rsi_overbought : float).

Local Notation "'f'" := (signal_of rsi_oversold rsi_overbought).

Lemma tot_row_in_bounds (tot : list Z) (row : Z) (s : SigBar) :
  getitem df row = Ok s ->
  length tot = length df ->
  tot_row df rsi_oversold rsi_overbought tot row
  = Ok (set_nth tot (Z.to_nat row) (f s)).
Proof.
  intros Hs Hlen. pose proof (getitem_bounds _ _ _ Hs) as Hrow.
  assert (Hin : forall t : list Z, length t = length df -> 0 <= row < len t)
    by (intros t Ht; unfold len in *; lia).
  unfold tot_row.
  rewrite (list_setitem_in_bounds tot row 0 (Hin _ Hlen)). cbn [bind].
  unfold and_then.
  rewrite (getitem_map EMAsignal _ _ _ Hs),
          (getitem_map (fun s => RSI (bar s)) _ _ _ Hs).
  cbn [bind]. unfold signal_of, combined.
  assert (H0 : forall v w, list_setitem (set_nth tot (Z.to_nat row) v) row w
                           = Ok (set_nth tot (Z.to_nat row) w)).
  { intros v w. rewrite list_setitem_in_bounds
      by (apply Hin; rewrite set_nth_length; exact Hlen).
    now rewrite set_nth_twice. }
  destruct (EMAsignal s =? 1) eqn:E1.
  - apply Z.eqb_eq in E1. rewrite E1. cbn [Z.eqb Pos.eqb andb bind].
    destruct (ge (RSI (bar s)) rsi_overbought); cbn [bind].
    + now rewrite H0.
    + reflexivity.
  - cbn [bind andb]. destruct (EMAsignal s =? 2); cbn [bind andb].
    + destruct (le (RSI (bar s)) rsi_oversold); cbn [bind];
        [apply H0 | reflexivity].
    + reflexivity.
Qed.

Lemma tot_loop (m k : nat) (tot : list Z) :
  (k + m = length df)%nat ->
  length tot = length df ->
  for_each (range (Z.of_nat k) (len df))
           (tot_row df rsi_oversold rsi_overbought) tot
  = Ok (firstn k tot ++ map f (skipn k df)).
Proof.
  revert k tot. induction m as [|m IH]; intros k tot Hk Hlen.
  - rewrite range_nil by (unfold len; lia).
    rewrite skipn_all2 by lia. rewrite firstn_all2 by lia.
    cbn. now rewrite app_nil_r.
  - rewrite range_cons by (unfold len; lia). cbn [for_each].
    destruct (nth_error df k) as [s|] eqn:Es;
      [|apply nth_error_None in Es; lia].
    assert (Hs : getitem df (Z.of_nat k) = Ok s)
      by (apply getitem_ok; rewrite Nat2Z.id; split; [lia | exact Es]).
    rewrite (tot_row_in_bounds tot _ s Hs Hlen). cbn [bind].
    replace (Z.of_nat k + 1) with (Z.of_nat (S k)) by lia.
    rewrite IH by (rewrite ?set_nth_length; lia).
    rewrite Nat2Z.id. f_equal.
    assert (Hsk : skipn k df = s :: skipn (S k) df).
    { clear - Es. revert k Es. induction df as [|h t IHt]; intros [|k] Es;
        cbn in *; try discriminate.
      - now injection Es as ->.
      - now apply IHt. }
    rewrite Hsk. cbn [map].
    assert (Hfk : forall (l : list Z) n v, (n < length l)%nat ->
                  firstn (S n) (set_nth l n v) = firstn n l ++ [v]).
    { clear. induction l as [|h t IHt]; intros [|n] v Hn; cbn in *; try lia.
      - reflexivity.
      - f_equal. apply IHt. lia. }
    rewrite Hfk by lia. now rewrite <- app_assoc.
Qed.

(** The loop never raises, and leaves in [TotSignal] the signal of each
    row. *)
Lemma tot_signals_spec :
  tot_signals df rsi_oversold rsi_overbought = Ok (map f df).
Proof.
  unfold tot_signals.
  rewrite (tot_loop (length df) O) by (rewrite ?repeat_length; lia).
  reflexivity.
Qed.

Lemma with_column_map {B C} (mk : SigBar -> B -> C) (g : SigBar -> B) :
  with_column mk df (map g df) = map (fun s => mk s (g s)) df.
Proof.
  unfold with_column. induction df as [|h t IH]; cbn; [reflexivity|].
  now rewrite IH.
Qed.

Lemma generate_total_signal_spec :
  generate_total_signal df rsi_oversold rsi_overbought
  = Ok (dropna (map (fun s => mkRow s (f s)) df)).
Proof.
  unfold generate_total_signal. rewrite tot_signals_spec. cbn [bind].
  now rewrite with_column_map.
Qed.

End Combiner.


(** C3.  [generate_total_signal] returns, and on each row it retains the
    signal is 1 (Sell) exactly when the label is StrongDowntrend and the
    momentum value is at or above the overbought threshold, 2 (Buy)
    exactly when the label is StrongUptrend and the momentum value is at
    or below the oversold threshold, and 0 (None) in every other case,
    the labels Ambiguous and NoTrend included. *)
Theorem combined_signal_of_retained_rows (df : list SigBar)
    (rsi_oversold rsi_overbought : float) :
  exists out,
    generate_total_signal df rsi_oversold rsi_overbought = Ok out
    /\ forall r, In r out ->
       let sells := EMAsignal (sbar r) = StrongDowntrend
                    /\ ge (RSI (bar (sbar r))) rsi_overbought = true in
       let buys := EMAsignal (sbar r) = StrongUptrend
                   /\ le (RSI (bar (sbar r))) rsi_oversold = true in
       (TotSignal r = 1 <-> sells)
       /\ (TotSignal r = 2 <-> buys)
       /\ (TotSignal r = 0 <-> ~ sells /\ ~ buys)
       /\ (EMAsignal (sbar r) = Ambiguous \/ EMAsignal (sbar r) = NoTrend ->
           TotSignal r = 0).
Proof.
  rewrite generate_total_signal_spec. eexists. split; [reflexivity|].
  intros r Hin. unfold dropna in Hin. apply filter_In in Hin as [Hin _].
  apply in_map_iff in Hin as (s & <- & _). cbn [sbar TotSignal].
  unfold signal_of, combined, StrongDowntrend, StrongUptrend, Ambiguous, NoTrend.
  destruct (Z.eqb_spec (EMAsignal s) 2) as [E2|E2];
    destruct (Z.eqb_spec (EMAsignal s) 1) as [E1|E1];
    destruct (le (RSI (bar s)) rsi_oversold);
    destruct (ge (RSI (bar s)) rsi_overbought);
    cbn [andb]; intuition (try lia; try discriminate).
Qed.

Lemma combined_signal_of_retained_rows_witness :
  exists out,
    generate_total_signal [mkSigBar bar_above StrongUptrend]
                          (Fin 5) (Fin 90) = Ok out
    /\ exists r, In r out /\ TotSignal r = 2.
Proof.
  destruct (combined_signal_of_retained_rows
              [mkSigBar bar_above StrongUptrend] (Fin 5) (Fin 90))
    as (out & Hrun & Hrows).
  exists out. split; [exact Hrun|].
  vm_compute in Hrun. injection Hrun as <-.
  eexists. split; [left; reflexivity | reflexivity].
Defined.

(** C7, as the code has it.  The rows with an undefined value are dropped
    (not filled) and the remaining ones keep their order and their
    values, but this is the last step of the combiner, not a step before
    the classifier: the classifier is called on the frame it is given and
    the column it returns has one entry for each row of that frame, the
    loop of the combiner computes one signal for each row of the frame it
    is given, and only the rows returned are free of undefined values. *)
Theorem rows_dropped_after_signals (df : Frame) (backcandles : Z)
    (rsi_oversold rsi_overbought : float) :
  signal_pipeline df backcandles rsi_oversold rsi_overbought
  = (emasignal <- generate_ema_signal df backcandles ;;
     Ok (filter (fun r => negb (has_nan (bar (sbar r))))
           (map (fun s => mkRow s (signal_of rsi_oversold rsi_overbought s))
              (with_column mkSigBar df emasignal))))
  /\ (forall emasignal,
        generate_ema_signal df backcandles = Ok emasignal ->
        length emasignal = length df)
  /\ forall sdf : list SigBar,
       exists tot out,
         tot_signals sdf rsi_oversold rsi_overbought = Ok tot
         /\ length tot = length sdf
         /\ generate_total_signal sdf rsi_oversold rsi_overbought = Ok out
         /\ out = filter (fun r => negb (has_nan (bar (sbar r))))
                   (map (fun s => mkRow s (signal_of rsi_oversold rsi_overbought s))
                      sdf)
         /\ Forall (fun r => has_nan (bar (sbar r)) = false) out.
Proof.
  split; [|split].
  - unfold signal_pipeline.
    destruct (generate_ema_signal df backcandles); cbn [bind]; try reflexivity.
    apply generate_total_signal_spec.
  - apply generate_ema_signal_length.
  - intros sdf. eexists. eexists. split; [apply tot_signals_spec|].
    split; [apply length_map|].
    split; [apply generate_total_signal_spec|].
    split; [reflexivity|].
    apply Forall_forall. intros r Hr. unfold dropna in Hr.
    apply filter_In in Hr as [_ Hr]. now apply negb_true_iff in Hr.
Qed.

(** C7, as it is worded, fails: the first two rows of [warmup_bars] have
    an undefined reference average, yet the classifier returns a column
    of three labels and the loop of the combiner a list of three signals,
    one for each row of the frame, those two included; they leave only
    afterwards, and one row is returned. *)
Lemma undefined_rows_dropped_last :
  map undefined_indicator warmup_bars = [true; true; false]
  /\ generate_ema_signal warmup_bars 8 = Ok [0; 0; 0]
  /\ tot_signals (with_column mkSigBar warmup_bars [0; 0; 0])
                 (Fin 10) (Fin 90) = Ok [0; 0; 0]
  /\ signal_pipeline warmup_bars 8 (Fin 10) (Fin 90)
     = Ok [mkRow (mkSigBar bar_above 0) 0]
  /\ ~ (forall df backcandles emasignal,
          generate_ema_signal df backcandles = Ok emasignal ->
          length emasignal
          = length (filter (fun b => negb (undefined_indicator b)) df)).
Proof.
  repeat split; try reflexivity.
  intros H. specialize (H warmup_bars 8 [0; 0; 0] eq_refl).
  discriminate H.
Qed.

(* ================================================================= *)
(** ** Warm-up rows and undefined reference averages *)

Lemma trend_label_of_window_witness :
  exists out,
    ema_row three_bars 1 [0; 0; 0] 1 = Ok out
    /\ getitem out 1 = Ok StrongUptrend.
Proof.
  destruct (trend_label_of_window three_bars 1 1 [0; 0; 0])
    as (upt & dnt & out & Hscan & _ & _ & _ & _ & Hrun & Hget & _);
    [lia | unfold len; cbn; lia | reflexivity | reflexivity |].
  exists out. split; [exact Hrun|].
  vm_compute in Hscan. injection Hscan as <- <-. exact Hget.
Defined.

Lemma signal_of_no_trend (rsi_oversold rsi_overbought : float) (s : SigBar) :
  EMAsignal s = NoTrend \/ EMAsignal s = Ambiguous ->
  signal_of rsi_oversold rsi_overbought s = 0.
Proof.
  unfold signal_of, combined, NoTrend, Ambiguous.
  intros [-> | ->]; reflexivity.
Qed.

(** The signal the loop of [generate_total_signal] leaves at a row whose
    label is NoTrend or Ambiguous is 0. *)
Lemma tot_signals_no_trend (sdf : list SigBar) (rsi_oversold rsi_overbought : float)
    (row e : Z) :
  getitem (map EMAsignal sdf) row = Ok e ->
  e = NoTrend \/ e = Ambiguous ->
  exists tot,
    tot_signals sdf rsi_oversold rsi_overbought = Ok tot
    /\ getitem tot row = Ok 0.
Proof.
  intros He Hlabel. rewrite tot_signals_spec. eexists. split; [reflexivity|].
  apply getitem_ok in He as [H0 He]. apply getitem_ok. split; [exact H0|].
  rewrite nth_error_map in *.
  destruct (nth_error sdf (Z.to_nat row)) as [s|]; cbn in *; [|discriminate].
  injection He as He. f_equal. apply signal_of_no_trend. now rewrite He.
Qed.



(** X21.  The body of the outer loop, on a row every bar of whose window
    has an undefined reference average (the window then lies within the
    series): no comparison of the scan holds, both flags survive and the
    label written is Ambiguous (3); the loop of the combiner gives the
    signal None (0) to a row with that label. *)
Theorem undefined_average_is_ambiguous (df : Frame) (backcandles row : Z)
    (emasignal : list Z) :
  0 <= backcandles ->
  backcandles - 1 <= row ->
  length emasignal = length df ->
  (forall i, row - backcandles <= i <= row ->
             exists b, getitem df i = Ok b /\ EMA b = NaN) ->
  (forall i b, row - backcandles <= i <= row -> getitem df i = Ok b ->
               ge (High b) (EMA b) = false /\ le (Low b) (EMA b) = false)
  /\ scan_window df backcandles row = Ok (1, 1)
  /\ (exists out, ema_row df backcandles emasignal row = Ok out
                  /\ getitem out row = Ok Ambiguous)
  /\ Ambiguous <> NoTrend
  /\ (forall (sdf : list SigBar) rsi_oversold rsi_overbought,
         getitem (map EMAsignal sdf) row = Ok Ambiguous ->
         exists tot, tot_signals sdf rsi_oversold rsi_overbought = Ok tot
                     /\ getitem tot row = Ok 0).
Proof.
  intros Hbc Hrow Hlen Hnan.
  assert (Hcmp : forall i b, row - backcandles <= i <= row ->
            getitem df i = Ok b ->
            ge (High b) (EMA b) = false /\ le (Low b) (EMA b) = false).
  { intros i b Hi Hb. destruct (Hnan i Hi) as (b' & Hb' & He).
    rewrite Hb in Hb'. injection Hb' as <-. rewrite He. unfold ge, le.
    destruct (High b), (Low b); auto. }
  assert (Hin : backcandles <= row < len df).
  { destruct (Hnan (row - backcandles)) as (b0 & Hb0 & _); [lia|].
    destruct (Hnan row) as (b1 & Hb1 & _); [lia|].
    apply getitem_bounds in Hb0. apply getitem_bounds in Hb1. lia. }
  assert (Hno : forall test : Bar -> bool,
            (forall i b, row - backcandles <= i <= row ->
                         getitem df i = Ok b -> test b = false) ->
            existsb (at_index test df) (window backcandles row) = false).
  { intros test Ht. apply not_true_is_false. intros Hex.
    apply touches_iff in Hex as (i & b & Hi & Hb & Htrue).
    rewrite (Ht i b Hi Hb) in Htrue. discriminate. }
  assert (Hscan : scan_window df backcandles row = Ok (1, 1)).
  { unfold scan_window.
    rewrite (scan_in_bounds df _ (window_in_bounds df backcandles row Hin)).
    rewrite (Hno low_at_or_below), (Hno high_at_or_above); [reflexivity| |].
    - intros i b Hi Hb. apply (Hcmp i b Hi Hb).
    - intros i b Hi Hb. apply (Hcmp i b Hi Hb). }
  split; [exact Hcmp|]. split; [exact Hscan|]. split; [|split].
  - unfold ema_row. rewrite Hscan. cbn [bind Z.eqb Pos.eqb andb].
    rewrite list_setitem_in_bounds by (unfold len in *; lia).
    eexists. split; [reflexivity|]. apply getitem_ok. split; [lia|].
    apply set_nth_same. unfold len in *. lia.
  - discriminate.
  - intros sdf rsi_oversold rsi_overbought He.
    apply tot_signals_no_trend with (e := Ambiguous); [exact He | now right].
Qed.

Lemma undefined_average_is_ambiguous_witness :
  scan_window warmup_bars 1 1 = Ok (1, 1)
  /\ exists out, ema_row warmup_bars 1 [0; 0; 0] 1 = Ok out
                 /\ getitem out 1 = Ok Ambiguous.
Proof.
  destruct (undefined_average_is_ambiguous warmup_bars 1 1 [0; 0; 0])
    as (_ & Hscan & Hout & _); [lia | lia | reflexivity | | ].
  - intros i Hi. assert (i = 0 \/ i = 1) as [-> | ->] by lia;
      eexists; split; reflexivity.
  - split; [exact Hscan | exact Hout].
Defined.

(* ================================================================= *)
(** ** Rows that are due a label *)

(** C4.  On [ten_bars] with [backcandles = 8] every bar of the window of
    row 9 has its low above the reference line and its high at or above
    it: only the uptrend flag survives the scan and the label due at row
    9 is StrongUptrend, which the loop body run at that row writes.  But
    [generate_ema_signal] raises at the first row it visits and outputs
    no label at all. *)
Theorem no_label_where_uptrend_is_due :
  window 8 9 = [1; 2; 3; 4; 5; 6; 7; 8; 9]
  /\ forallb (at_index (fun b => negb (low_at_or_below b)) ten_bars)
             (window 8 9) = true
  /\ forallb (at_index high_at_or_above ten_bars) (window 8 9) = true
  /\ scan_window ten_bars 8 9 = Ok (1, 0)
  /\ ema_row ten_bars 8 (repeat 0 10%nat) 9
     = Ok [0; 0; 0; 0; 0; 0; 0; 0; 0; StrongUptrend]
  /\ generate_ema_signal ten_bars 8 = KeyError (-1).
Proof. repeat split; reflexivity. Qed.

(** C10.  On [warmup_bars] with [backcandles = 1] both bars of the window
    of row 1 have an undefined reference average: both flags survive the
    scan and the label due at row 1 is Ambiguous, which the loop body run
    at that row writes.  But [generate_ema_signal] raises at the first
    row it visits, so no bar is labelled Ambiguous and the pipeline
    returns no signal. *)
Theorem no_label_where_ambiguous_is_due :
  window 1 1 = [0; 1]
  /\ forallb (at_index (fun b => is_nan (EMA b)) warmup_bars) (window 1 1)
     = true
  /\ scan_window warmup_bars 1 1 = Ok (1, 1)
  /\ ema_row warmup_bars 1 [0; 0; 0] 1 = Ok [0; Ambiguous; 0]
  /\ generate_ema_signal warmup_bars 1 = KeyError (-1)
  /\ signal_pipeline warmup_bars 1 (Fin 10) (Fin 90) = KeyError (-1).
Proof. repeat split; reflexivity. Qed.

(* ================================================================= *)
(** ** Order on floats *)

Lemma lt_le (a b : float) : lt a b = true -> le a b = true.
Proof.
  destruct a as [| | |p], b as [| | |q]; cbn; try discriminate; auto.
  intros H. apply negb_true_iff in H. apply Qle_bool_iff.
  apply Qlt_le_weak, Qnot_le_lt. intros Hle.
  apply Qle_bool_iff in Hle. congruence.
Qed.

Lemma le_refl (a : float) : is_nan a = false -> le a a = true.
Proof.
  destruct a; cbn; try discriminate; auto.
  intros _. apply Qle_bool_iff, Qle_refl.
Qed.

Lemma le_trans (a b c : float) :
  le a b = true -> le b c = true -> le a c = true.
Proof.
  destruct a as [| | |p], b as [| | |q], c as [| | |r]; cbn;
    try discriminate; auto.
  rewrite !Qle_bool_iff. apply Qle_trans.
Qed.

Lemma lt_asym (a b : float) : lt a b = true -> lt b a = false.
Proof.
  destruct a as [| | |p], b as [| | |q]; cbn; try discriminate; auto.
  intros H. apply negb_true_iff in H. apply negb_false_iff.
  apply Qle_bool_iff. apply Qlt_le_weak, Qnot_le_lt. intros Hle.
  apply Qle_bool_iff in Hle. congruence.
Qed.

(** A price is a positive rational. *)
Lemma is_price_fin (s : float) :
  is_price s = true -> exists q, s = Fin q /\ (0 < q)%Q.
Proof.
  unfold is_price. destruct s as [| | |q]; cbn; try discriminate.
  rewrite andb_true_r. intros H. exists q. split; [reflexivity|].
  apply negb_true_iff in H. apply Qnot_le_lt. intros Hle.
  apply Qle_bool_iff in Hle. congruence.
Qed.

Lemma price_or (s d : float) : is_price s = true -> py_or (Some s) d = s.
Proof.
  intros H. destruct (is_price_fin s H) as (q & -> & Hq). cbn.
  destruct (Qeq_bool q 0) eqn:E; [|reflexivity].
  apply Qeq_bool_iff in E. rewrite E in Hq. now apply Qlt_irrefl in Hq.
Qed.

Lemma price_not_nan (s : float) : is_price s = true -> is_nan s = false.
Proof.
  intros H. now destruct (is_price_fin s H) as (q & -> & _).
Qed.

(* ================================================================= *)
(** ** Strategy 3: the trailing stop *)

Lemma long_stop_price (s close atr : float) :
  is_price s = true ->
  long_stop (Some s) close atr = max s (sub close (mul (Fin (15 # 10)) atr))
  /\ le s (long_stop (Some s) close atr) = true.
Proof.
  intros H. unfold long_stop, trail. rewrite (price_or s _ H).
  split; [reflexivity|]. unfold max, gt.
  destruct (lt s _) eqn:E; [now apply lt_le|].
  apply le_refl, price_not_nan, H.
Qed.

Lemma short_stop_price (s close atr : float) :
  is_price s = true ->
  short_stop (Some s) close atr = min s (add close (mul (Fin (15 # 10)) atr))
  /\ ge s (short_stop (Some s) close atr) = true.
Proof.
  intros H. unfold short_stop, trail. rewrite (price_or s _ H).
  split; [reflexivity|]. unfold min, ge.
  destruct (lt _ s) eqn:E; [now apply lt_le|].
  apply le_refl, price_not_nan, H.
Qed.

Lemma long_stops_sorted (bars : list (float * float)) :
  forall s, is_price s = true ->
  Forall (fun x => le s x = true) (long_stops s bars)
  /\ StronglySorted (fun a b => le a b = true) (long_stops s bars).
Proof.
  induction bars as [|[close atr] rest IH]; intros s Hs; cbn [long_stops].
  - split; [|repeat constructor].
    constructor; [|constructor]. apply le_refl, price_not_nan, Hs.
  - pose proof (le_refl s (price_not_nan s Hs)) as Hss.
    destruct (is_price (long_stop (Some s) close atr)) eqn:E.
    + destruct (IH _ E) as [Hall Hsorted].
      destruct (long_stop_price s close atr Hs) as [_ Hle].
      assert (Hall' : Forall (fun x => le s x = true)
                        (long_stops (long_stop (Some s) close atr) rest)).
      { eapply Forall_impl; [|exact Hall].
        intros x Hx. cbn beta in Hx. eapply le_trans; eassumption. }
      split; constructor; assumption.
    + split; repeat constructor; assumption.
Qed.

Lemma short_stops_sorted (bars : list (float * float)) :
  forall s, is_price s = true ->
  Forall (fun x => ge s x = true) (short_stops s bars)
  /\ StronglySorted (fun a b => ge a b = true) (short_stops s bars).
Proof.
  induction bars as [|[close atr] rest IH]; intros s Hs; cbn [short_stops].
  - split; [|repeat constructor].
    constructor; [|constructor]. apply le_refl, price_not_nan, Hs.
  - pose proof (le_refl s (price_not_nan s Hs)) as Hss.
    destruct (is_price (short_stop (Some s) close atr)) eqn:E.
    + destruct (IH _ E) as [Hall Hsorted].
      destruct (short_stop_price s close atr Hs) as [_ Hge].
      assert (Hall' : Forall (fun x => ge s x = true)
                        (short_stops (short_stop (Some s) close atr) rest)).
      { eapply Forall_impl; [|exact Hall].
        intros x Hx. cbn beta in Hx. unfold ge in *.
        eapply le_trans; eassumption. }
      split; constructor; assumption.
    + split; repeat constructor; assumption.
Qed.

(** C5.  Each update of variant C sets the stop of a long trade to the
    maximum of the stop it holds and [close - 1.5 * ATR], and the stop of
    a short trade to the minimum of the stop it holds and
    [close + 1.5 * ATR]; over the life of a trade the stops of a long
    trade never decrease and those of a short trade never increase. *)
Theorem trailing_stop_never_loosens (s : float) (bars : list (float * float)) :
  is_price s = true ->
  StronglySorted (fun a b => le a b = true) (long_stops s bars)
  /\ StronglySorted (fun a b => ge a b = true) (short_stops s bars)
  /\ (forall close atr,
        long_stop (Some s) close atr
        = max s (sub close (mul (Fin (15 # 10)) atr))
        /\ le s (long_stop (Some s) close atr) = true)
  /\ (forall close atr,
        short_stop (Some s) close atr
        = min s (add close (mul (Fin (15 # 10)) atr))
        /\ ge s (short_stop (Some s) close atr) = true).
Proof.
  intros Hs. split; [apply long_stops_sorted, Hs|].
  split; [apply short_stops_sorted, Hs|].
  split; intros close atr;
    [apply long_stop_price | apply short_stop_price]; exact Hs.
Qed.

Lemma trailing_stop_never_loosens_witness :
  StronglySorted (fun a b => le a b = true)
    (long_stops (Fin 1) [(Fin (11 # 10), Fin (1 # 100));
                         (Fin (105 # 100), Fin (1 # 100));
                         (Fin (12 # 10), Fin (1 # 100))])
  /\ long_stops (Fin 1) [(Fin (11 # 10), Fin (1 # 100));
                         (Fin (105 # 100), Fin (1 # 100));
                         (Fin (12 # 10), Fin (1 # 100))]
     = [Fin 1; long_stop (Some (Fin 1)) (Fin (11 # 10)) (Fin (1 # 100));
        long_stop (Some (Fin 1)) (Fin (11 # 10)) (Fin (1 # 100));
        long_stop (Some (long_stop (Some (Fin 1)) (Fin (11 # 10)) (Fin (1 # 100))))
                  (Fin (12 # 10)) (Fin (1 # 100))].
Proof.
  split; [|reflexivity].
  apply (trailing_stop_never_loosens (Fin 1)). reflexivity.
Defined.

(* ================================================================= *)
(** ** One position at a time *)

Lemma manage_all_no_entry (v : View) (ts : list Trade) :
  forall k, filter is_entry (manage_all v k ts) = [].
Proof.
  induction ts as [|t rest IH]; intros k; cbn [manage_all]; [reflexivity|].
  rewrite filter_app, IH, app_nil_r. unfold manage.
  destruct (is_long t), (signal1 v =? 1), (signal1 v =? 2); reflexivity.
Qed.

Lemma no_trade_iff (v : View) : no_trade v = true <-> trades v = [].
Proof.
  unfold no_trade, len. destruct (trades v); cbn; split;
    intros H; try reflexivity; try discriminate.
Qed.

(** The entry orders in the calls of [next]: none while a trade is open,
    one at most otherwise. *)
Lemma entries_of_next (var : Variant) (mysize : float) (v : View) :
  (trades v <> [] -> filter is_entry (snd (next var mysize v)) = [])
  /\ (length (filter is_entry (snd (next var mysize v))) <= 1)%nat.
Proof.
  assert (Hm := manage_all_no_entry v (trades v) 0).
  destruct (no_trade v) eqn:E.
  - apply no_trade_iff in E. split; [contradiction|].
    destruct var; cbn [next];
      unfold Strategy1_next, Strategy2_next, Strategy3_next;
      rewrite ?(proj2 (no_trade_iff v) E), ?andb_true_r;
      destruct (signal1 v =? 2), (signal1 v =? 1); cbn [snd];
      rewrite ?filter_app, ?Hm; cbn; lia.
  - assert (Hnone : filter is_entry (snd (next var mysize v)) = []).
    { destruct var; cbn [next];
        unfold Strategy1_next, Strategy2_next, Strategy3_next;
        rewrite E, ?andb_false_r; cbn [snd]; auto. }
    rewrite Hnone. cbn. split; [reflexivity | lia].
Qed.

(** The calls made are an initial part of the calls planned. *)
Lemma perform_entries (broker : Call -> bool) (plan : list Call) :
  (length (filter is_entry (fst (perform broker plan)))
   <= length (filter is_entry plan))%nat
  /\ (filter is_entry plan = [] ->
      filter is_entry (fst (perform broker plan)) = []).
Proof.
  induction plan as [|c rest [IHlen IHnil]]; cbn [perform]; [auto|].
  destruct (broker c).
  - destruct (perform broker rest) as [made raised]. cbn [fst filter] in *.
    destruct (is_entry c); cbn [length]; split; try lia; try discriminate.
    exact IHnil.
  - cbn [fst filter]. destruct (is_entry c); cbn [length]; split;
      try lia; try discriminate; auto.
Qed.

Lemma on_bar_unfold (var : Variant) (broker : Call -> bool) (mysize : float)
    (v : View) :
  on_bar var broker mysize v
  = (fst (next var mysize v), perform broker (snd (next var mysize v))).
Proof. unfold on_bar. now destruct (next var mysize v). Qed.

(** C6.  In each of the three variants no entry order is among the
    calls of a bar on which a trade is open, whatever the signal, and at
    every bar of a replay at most one trade is open. *)
Theorem at_most_one_open_trade :
  (forall var broker mysize v,
      trades v <> [] ->
      filter is_entry (fst (snd (on_bar var broker mysize v))) = [])
  /\ (forall var mysize open,
        reachable var mysize open -> (length open <= 1)%nat).
Proof.
  split.
  - intros var broker mysize v Hopen. rewrite on_bar_unfold. cbn [fst snd].
    apply perform_entries. now apply entries_of_next.
  - intros var mysize open Hreach.
    induction Hreach as [|mysize v broker after _ IH _ Hsettle]; [cbn; lia|].
    unfold broker_settles in Hsettle.
    rewrite on_bar_unfold in Hsettle. cbn [fst snd] in Hsettle.
    pose proof (proj1 (perform_entries broker (snd (next var mysize v)))) as Hp.
    destruct (entries_of_next var mysize v) as [Hnone Hone].
    destruct (trades v) as [|t ts] eqn:Et.
    + cbn [length] in Hsettle. lia.
    + rewrite Hnone in Hp by discriminate. cbn [length] in *. lia.
Qed.

Lemma at_most_one_open_trade_witness :
  filter is_entry (fst (snd (on_bar TrailingStop accepting initsize
                               (mkView 1 (Fin (11 # 10)) (Fin (1 # 1000))
                                       [long_trade] [])))) = []
  /\ reachable FixedSLTP (fst (on_bar FixedSLTP accepting initsize view_entry))
               [long_trade]
  /\ (length [long_trade] <= 1)%nat.
Proof.
  destruct at_most_one_open_trade as [Hentry Hone].
  split; [apply Hentry; discriminate|].
  assert (Hreach : reachable FixedSLTP
                     (fst (on_bar FixedSLTP accepting initsize view_entry))
                     [long_trade]).
  { apply reach_bar.
    - apply reach_start.
    - reflexivity.
    - unfold broker_settles. cbn. lia. }
  split; [exact Hreach|]. apply (Hone _ _ _ Hreach).
Defined.

(* ================================================================= *)
(** ** Strategy 1: the size after a loss *)

Lemma sizing_doubled (v : View) :
  sizing v = Doubled <->
  signal1 v > 0 /\ trades v = []
  /\ exists pl, last_pl v = Some pl /\ lt pl (Fin 0) = true.
Proof.
  unfold sizing. rewrite <- no_trade_iff.
  set (lost := match last_pl v with
               | Some pl => lt pl (Fin 0)
               | None => false
               end).
  assert (Hlost : lost = true <->
                  exists pl, last_pl v = Some pl /\ lt pl (Fin 0) = true).
  { subst lost. destruct (last_pl v) as [pl|]; split.
    - intros H. eauto.
    - intros (pl' & [= <-] & H). exact H.
    - discriminate.
    - intros (pl' & [=] & _). }
  rewrite <- Hlost. clearbody lost.
  destruct (Z.gtb_spec (signal1 v) 0); destruct (no_trade v); destruct lost;
    cbn [andb];
    repeat match goal with
           | |- context [if ?c then _ else _] => destruct c
           end;
    split; intros; try discriminate; intuition (try lia; try discriminate).
Qed.

Lemma sizing_rebased (v : View) :
  sizing v = Rebased <->
  exists pl, last_pl v = Some pl /\ gt pl (Fin 0) = true.
Proof.
  unfold sizing. destruct (last_pl v) as [pl|].
  - destruct (gt pl (Fin 0)) eqn:Eg.
    + unfold gt in Eg. rewrite (lt_asym _ _ Eg), andb_false_r.
      split; [eauto | reflexivity].
    + destruct ((signal1 v >? 0) && no_trade v && lt pl (Fin 0));
        split; try discriminate; intros (pl' & [= <-] & H); congruence.
  - rewrite andb_false_r. split; [discriminate | intros (pl & [=] & _)].
Qed.

Lemma size_after_from (views : list View) :
  forall (d : nat) (q : Q),
    (q == (2 # 10) * two_to d)%Q ->
    exists q',
      fold_left martingale views (Fin q) = Fin q'
      /\ (q' == (2 # 10) * two_to
                  (fold_left (fun d v => match sizing v with
                                         | Doubled => S d
                                         | Rebased => O
                                         | Kept => d
                                         end) views d))%Q.
Proof.
  induction views as [|v rest IH]; intros d q Hq; cbn [fold_left].
  - exists q. split; [reflexivity | exact Hq].
  - unfold martingale at 2. destruct (sizing v).
    + apply IH. cbn [mul two_to]. rewrite Hq. ring.
    + apply IH. cbn [two_to]. ring.
    + apply IH. exact Hq.
Qed.

(** C2, as the code has it.  A bar doubles the size exactly when the
    signal is active, no trade is open and the last closed trade lost; it
    sets the size back to [initsize] exactly when the last closed trade
    won; any other bar keeps it.  So after any bars the size is
    [initsize * 2 ** d], [d] being the number of bars that doubled it
    since the last bar that set it back. *)
Theorem size_is_base_times_doublings (views : list View) :
  (exists q, size_after views = Fin q
             /\ (q == (2 # 10) * two_to (doublings views))%Q)
  /\ (forall mysize v,
        martingale mysize v = match sizing v with
                              | Doubled => mul mysize (Fin 2)
                              | Rebased => initsize
                              | Kept => mysize
                              end)
  /\ (forall v, sizing v = Doubled <->
                signal1 v > 0 /\ trades v = []
                /\ exists pl, last_pl v = Some pl /\ lt pl (Fin 0) = true)
  /\ (forall v, sizing v = Rebased <->
                exists pl, last_pl v = Some pl /\ gt pl (Fin 0) = true).
Proof.
  split; [|split; [reflexivity | split; [apply sizing_doubled
                                         | apply sizing_rebased]]].
  apply (size_after_from views O (2 # 10)). cbn [two_to]. ring.
Qed.

(** C2, as it is worded, fails: once the first trade is closed at a loss
    the run of losing trades has length 1, but on a bar without signal the
    size is still [initsize], not twice as much. *)
Lemma size_not_doubled_before_next_signal :
  losing_run view_lost = 1%nat
  /\ eqb (size_after [view_entry; view_open; view_lost]) initsize = true
  /\ eqb (size_after [view_entry; view_open; view_lost])
         (mul initsize (Fin (two_to (losing_run view_lost)))) = false
  /\ ~ (forall views v,
          eqb (size_after (views ++ [v]))
              (mul initsize (Fin (two_to (losing_run v)))) = true).
Proof.
  repeat split; try reflexivity.
  intros H. specialize (H [view_entry; view_open] view_lost).
  vm_compute in H. discriminate H.
Qed.

(* ================================================================= *)
(** ** Calls that fail *)

(** C8, as the code has it.  The size strategy 1 holds after a bar is the
    one its sizing step computed, whether the calls of the bar returned
    or raised; strategies 2 and 3 never change the size. *)
Theorem size_adjustment_kept_when_call_fails (broker : Call -> bool)
    (mysize : float) (v : View) :
  fst (on_bar FixedSLTP broker mysize v) = martingale mysize v
  /\ fst (on_bar ATRBased broker mysize v) = mysize
  /\ fst (on_bar TrailingStop broker mysize v) = mysize.
Proof.
  rewrite !on_bar_unfold. cbn [fst next].
  unfold Strategy1_next, Strategy2_next, Strategy3_next.
  destruct ((signal1 v =? 2) && no_trade v),
           ((signal1 v =? 1) && no_trade v); auto.
Qed.

(** C8, as it is worded, fails: on a Buy signal after a loss strategy 1
    doubles the size, the entry order raises, and the size stays
    doubled. *)
Lemma failed_entry_keeps_doubled_size :
  on_bar FixedSLTP refusing initsize view_after_loss
  = (mul initsize (Fin 2),
     ([buy (Some (sub (Fin (109 # 100)) pips45))
           (Some (add (Fin (109 # 100)) pips45))
           (mul initsize (Fin 2))], true))
  /\ eqb (mul initsize (Fin 2)) initsize = false
  /\ ~ (forall var broker mysize v,
          snd (snd (on_bar var broker mysize v)) = true ->
          eqb (fst (on_bar var broker mysize v)) mysize = true).
Proof.
  repeat split; try reflexivity.
  intros H. specialize (H FixedSLTP refusing initsize view_after_loss).
  vm_compute in H. discriminate (H eq_refl).
Qed.

(* ================================================================= *)
(** ** Further properties of the classifier *)

(** X1.  For a non-negative [backcandles], [generate_ema_signal] raises
    [KeyError(-1)] on every frame with at least [backcandles] rows, and
    returns a column of zeros on every shorter frame. *)
Theorem classifier_raises_or_returns_zeros (df : Frame) (backcandles : Z) :
  0 <= backcandles ->
  (backcandles <= len df -> generate_ema_signal df backcandles = KeyError (-1))
  /\ (len df < backcandles ->
      generate_ema_signal df backcandles = Ok (repeat 0 (length df))).
Proof.
  intros Hbc. split; intros Hlen.
  - apply generate_ema_signal_raises. lia.
  - unfold generate_ema_signal. now rewrite range_nil by lia.
Qed.

Lemma classifier_raises_or_returns_zeros_witness :
  generate_ema_signal ten_bars 8 = KeyError (-1)
  /\ generate_ema_signal three_bars 8 = Ok [0; 0; 0].
Proof.
  split.
  - apply (classifier_raises_or_returns_zeros ten_bars 8); [lia|].
    unfold len. cbn. lia.
  - apply (classifier_raises_or_returns_zeros three_bars 8); [lia|].
    unfold len. cbn. lia.
Defined.

Lemma with_column_repeat_zero (df : Frame) (n : nat) :
  Forall (fun s => EMAsignal s = 0) (with_column mkSigBar df (repeat 0 n)).
Proof.
  unfold with_column. revert n.
  induction df as [|b rest IH]; intros [|n]; cbn; constructor; auto.
Qed.

(** X2.  For a non-negative [backcandles] the pipeline of classifier and
    combiner never yields a signal: on a frame with at least
    [backcandles] rows it raises [KeyError(-1)], and when it returns every
    row it returns has label 0 and signal 0. *)
Theorem pipeline_never_signals (df : Frame) (backcandles : Z)
    (rsi_oversold rsi_overbought : float) :
  0 <= backcandles ->
  (backcandles <= len df ->
   signal_pipeline df backcandles rsi_oversold rsi_overbought = KeyError (-1))
  /\ (forall out,
        signal_pipeline df backcandles rsi_oversold rsi_overbought = Ok out ->
        len df < backcandles
        /\ Forall (fun r => EMAsignal (sbar r) = 0 /\ TotSignal r = 0) out).
Proof.
  intros Hbc. split.
  - intros Hlen. unfold signal_pipeline.
    rewrite generate_ema_signal_raises by lia. reflexivity.
  - intros out Hrun. unfold signal_pipeline in Hrun.
    destruct (Z.le_gt_cases backcandles (len df)) as [Hlen | Hlen].
    + rewrite generate_ema_signal_raises in Hrun by lia. discriminate.
    + split; [lia|].
      unfold generate_ema_signal in Hrun. rewrite range_nil in Hrun by lia.
      cbn [for_each bind] in Hrun.
      rewrite generate_total_signal_spec in Hrun. injection Hrun as <-.
      apply Forall_forall. intros r Hr. unfold dropna in Hr.
      apply filter_In in Hr as [Hr _].
      apply in_map_iff in Hr as (s & <- & Hs). cbn [sbar TotSignal].
      pose proof (with_column_repeat_zero df (length df)) as Hz.
      rewrite Forall_forall in Hz. specialize (Hz s Hs).
      split; [exact Hz|]. apply signal_of_no_trend. now left.
Qed.

Lemma pipeline_never_signals_witness :
  signal_pipeline ten_bars 8 (Fin 10) (Fin 90) = KeyError (-1)
  /\ forall out, signal_pipeline three_bars 8 (Fin 10) (Fin 90) = Ok out ->
                 Forall (fun r => EMAsignal (sbar r) = 0 /\ TotSignal r = 0) out.
Proof.
  destruct (pipeline_never_signals ten_bars 8 (Fin 10) (Fin 90)) as [Hraise _];
    [lia|].
  destruct (pipeline_never_signals three_bars 8 (Fin 10) (Fin 90)) as [_ Hzero];
    [lia|].
  split.
  - apply Hraise. unfold len. cbn. lia.
  - intros out Hout. apply (Hzero out Hout).
Defined.

Lemma set_nth_forall {A} (P : A -> Prop) (l : list A) (n : nat) (v : A) :
  Forall P l -> P v -> Forall P (set_nth l n v).
Proof.
  intros Hl Hv. revert n.
  induction Hl as [|h t Hh Ht IH]; intros [|n]; cbn; constructor; auto.
Qed.

(** One row whose window lies within the series: the loop body returns,
    and writes a label at most at that row. *)
Lemma ema_row_in_bounds (df : Frame) (backcandles row : Z) (s : list Z) :
  backcandles <= row < len df ->
  0 <= backcandles ->
  length s = length df ->
  Forall is_label s ->
  exists out,
    ema_row df backcandles s row = Ok out
    /\ length out = length df
    /\ Forall is_label out.
Proof.
  intros Hrow Hbc Hlen Hs. unfold ema_row, scan_window.
  rewrite (scan_in_bounds df _ (window_in_bounds df backcandles row Hrow)).
  cbn [bind].
  assert (Hset : forall v, is_label v -> exists out,
             list_setitem s row v = Ok out /\ length out = length df
             /\ Forall is_label out).
  { intros v Hv. rewrite list_setitem_in_bounds by (unfold len in *; lia).
    eexists. split; [reflexivity|]. split.
    - now rewrite set_nth_length.
    - now apply set_nth_forall. }
  destruct (existsb _ _), (existsb _ _); cbn [Z.eqb Pos.eqb andb];
    try (apply Hset; unfold is_label, Ambiguous, StrongUptrend,
                            StrongDowntrend; lia).
  exists s. auto.
Qed.

(** X3.  Over any rows whose windows lie within the series the outer
    loop of the classifier never raises; the column keeps the length of
    the frame and holds only the labels 0, 1, 2 and 3. *)
Theorem classifier_loop_in_bounds (df : Frame) (backcandles : Z)
    (rows : list Z) :
  0 <= backcandles ->
  Forall (fun row => backcandles <= row < len df) rows ->
  exists out,
    for_each rows (ema_row df backcandles) (repeat 0 (length df)) = Ok out
    /\ length out = length df
    /\ Forall (fun x => 0 <= x <= 3) out.
Proof.
  intros Hbc Hrows.
  assert (Hgen : forall s, length s = length df -> Forall is_label s ->
            exists out, for_each rows (ema_row df backcandles) s = Ok out
                        /\ length out = length df /\ Forall is_label out).
  { induction Hrows as [|row rest Hrow _ IH]; intros s Hlen Hs.
    - exists s. auto.
    - destruct (ema_row_in_bounds df backcandles row s Hrow Hbc Hlen Hs)
        as (s1 & Hstep & Hlen1 & Hs1).
      cbn [for_each]. rewrite Hstep. cbn [bind]. now apply IH. }
  apply Hgen; [apply repeat_length|].
  apply Forall_forall. intros x Hx. apply repeat_spec in Hx. subst x.
  unfold is_label. lia.
Qed.

Lemma classifier_loop_in_bounds_witness :
  exists out,
    for_each [8; 9] (ema_row ten_bars 8) (repeat 0 (length ten_bars)) = Ok out
    /\ length out = length ten_bars
    /\ Forall (fun x => 0 <= x <= 3) out.
Proof.
  apply (classifier_loop_in_bounds ten_bars 8 [8; 9]); [lia|].
  unfold len. cbn. repeat constructor; lia.
Defined.

Lemma le_total (a b : float) :
  is_nan a = false -> is_nan b = false -> le a b = false -> lt b a = true.
Proof.
  destruct a as [| | |p], b as [| | |q]; cbn; try discriminate; auto.
  intros _ _ H. now rewrite H.
Qed.

Lemma le_not_nan (a b : float) :
  le a b = true -> is_nan a = false /\ is_nan b = false.
Proof. destruct a, b; cbn; try discriminate; auto. Qed.

(** X4.  A single bar of the window that touches or straddles the
    reference line (low at or below it, high at or above it) clears both
    flags: the row is left without a label, whatever the other bars
    are. *)
Theorem touching_bar_leaves_row_unlabelled (df : Frame) (backcandles row : Z)
    (emasignal : list Z) (i : Z) (b : Bar) :
  backcandles <= row < len df ->
  row - backcandles <= i <= row ->
  getitem df i = Ok b ->
  le (Low b) (EMA b) = true ->
  ge (High b) (EMA b) = true ->
  scan_window df backcandles row = Ok (0, 0)
  /\ ema_row df backcandles emasignal row = Ok emasignal.
Proof.
  intros Hrow Hi Hb Hlow Hhigh.
  assert (Hscan : scan_window df backcandles row = Ok (0, 0)).
  { unfold scan_window.
    rewrite (scan_in_bounds df _ (window_in_bounds df backcandles row Hrow)).
    rewrite (proj2 (touches_iff low_at_or_below df backcandles row))
      by (exists i, b; auto).
    rewrite (proj2 (touches_iff high_at_or_above df backcandles row))
      by (exists i, b; auto).
    reflexivity. }
  split; [exact Hscan|]. unfold ema_row. rewrite Hscan. reflexivity.
Qed.

Lemma touching_bar_leaves_row_unlabelled_witness :
  ema_row [bar_above; sample_bar (Fin (11 # 10)) (Fin 1) (Fin 1) (Fin 5);
           bar_above] 1 [0; 0; 0] 2 = Ok [0; 0; 0].
Proof.
  eapply (touching_bar_leaves_row_unlabelled _ 1 2 [0; 0; 0] 1);
    [unfold len; cbn; lia | lia | reflexivity | reflexivity | reflexivity].
Defined.

(** X5.  The label Ambiguous needs malformed data: if one bar of the
    window has its low at or below its high and a defined reference
    average, at least one flag is cleared and the row is not labelled
    Ambiguous. *)
Theorem well_formed_bar_excludes_ambiguous (df : Frame) (backcandles row : Z)
    (emasignal : list Z) (i : Z) (b : Bar) :
  backcandles <= row < len df ->
  0 <= row ->
  length emasignal = length df ->
  getitem emasignal row = Ok NoTrend ->
  row - backcandles <= i <= row ->
  getitem df i = Ok b ->
  le (Low b) (High b) = true ->
  is_nan (EMA b) = false ->
  exists upt dnt out,
    scan_window df backcandles row = Ok (upt, dnt)
    /\ (upt = 0 \/ dnt = 0)
    /\ ema_row df backcandles emasignal row = Ok out
    /\ getitem out row <> Ok Ambiguous.
Proof.
  intros Hrow Hrow0 Hlen Hzero Hi Hb Hbar Hema.
  destruct (le_not_nan _ _ Hbar) as [Hl Hh].
  assert (Htouch : le (Low b) (EMA b) = true \/ ge (High b) (EMA b) = true).
  { destruct (le (Low b) (EMA b)) eqn:E; [now left | right].
    apply le_total in E; auto. unfold ge.
    eapply le_trans; [apply lt_le; exact E | exact Hbar]. }
  pose proof (scan_in_bounds df _ (window_in_bounds df backcandles row Hrow) 1 1)
    as Hscan.
  pose proof (touches_iff low_at_or_below df backcandles row) as Hlow.
  pose proof (touches_iff high_at_or_above df backcandles row) as Hhigh.
  set (lo := existsb (at_index low_at_or_below df) (window backcandles row)) in *.
  set (hi := existsb (at_index high_at_or_above df) (window backcandles row)) in *.
  assert (Hone : lo = true \/ hi = true).
  { destruct Htouch as [Ht | Ht]; [left; apply Hlow | right; apply Hhigh];
      exists i, b; auto. }
  assert (Hw : forall v, list_setitem emasignal row v
                         = Ok (set_nth emasignal (Z.to_nat row) v)
                         /\ getitem (set_nth emasignal (Z.to_nat row) v) row
                            = Ok v).
  { intros v. split.
    - apply list_setitem_in_bounds. unfold len in *. lia.
    - apply getitem_ok. split; [lia|]. apply set_nth_same.
      unfold len in *. lia. }
  clearbody lo hi.
  exists (if lo then 0 else 1), (if hi then 0 else 1).
  unfold ema_row, scan_window. fold (window backcandles row). rewrite Hscan.
  cbn [bind].
  destruct lo, hi; cbn [Z.eqb Pos.eqb andb];
    try (destruct Hone; discriminate).
  - exists emasignal. repeat split; auto. rewrite Hzero. discriminate.
  - eexists. split; [reflexivity|]. split; [now left|].
    rewrite (proj1 (Hw _)). split; [reflexivity|].
    rewrite (proj2 (Hw _)). discriminate.
  - eexists. split; [reflexivity|]. split; [now right|].
    rewrite (proj1 (Hw _)). split; [reflexivity|].
    rewrite (proj2 (Hw _)). discriminate.
Qed.

Lemma well_formed_bar_excludes_ambiguous_witness :
  exists out,
    ema_row warmup_bars 2 [0; 0; 0] 2 = Ok out
    /\ getitem out 2 <> Ok Ambiguous.
Proof.
  destruct (well_formed_bar_excludes_ambiguous warmup_bars 2 2 [0; 0; 0] 2
              bar_above)
    as (upt & dnt & out & _ & _ & Hrun & Hget);
    [unfold len; cbn; lia | lia | reflexivity | reflexivity | lia
     | reflexivity | reflexivity | reflexivity |].
  exists out. split; assumption.
Defined.

Lemma label_of_range (upt dnt : Z) : is_label (label_of upt dnt).
Proof.
  unfold label_of, is_label, Ambiguous, StrongUptrend, StrongDowntrend, NoTrend.
  destruct ((upt =? 1) && (dnt =? 1)); [lia|].
  destruct (upt =? 1); [lia|]. destruct (dnt =? 1); lia.
Qed.

(** On a row whose window lies within the series, the loop body writes
    the label of the window at that row, unless that label is 0. *)
Lemma ema_row_exact (df : Frame) (backcandles row : Z) (s : list Z) :
  backcandles <= row < len df ->
  0 <= row ->
  length s = length df ->
  ema_row df backcandles s row
  = Ok (if window_label df backcandles row =? 0 then s
        else set_nth s (Z.to_nat row) (window_label df backcandles row)).
Proof.
  intros Hrow Hrow0 Hlen. unfold window_label, ema_row, scan_window.
  rewrite (scan_in_bounds df _ (window_in_bounds df backcandles row Hrow)).
  cbn [bind]. unfold label_of.
  destruct (existsb _ _), (existsb _ _); cbn [Z.eqb Pos.eqb andb];
    try (apply list_setitem_in_bounds; unfold len in *; lia).
  reflexivity.
Qed.

Lemma ema_row_reads (df : Frame) (backcandles row : Z) (s : list Z) (r : Z) :
  backcandles <= row < len df ->
  0 <= row ->
  length s = length df ->
  0 <= r < len df ->
  getitem s r = Ok 0 \/ getitem s r = Ok (window_label df backcandles r) ->
  exists s1,
    ema_row df backcandles s row = Ok s1
    /\ length s1 = length df
    /\ (r = row -> getitem s1 r = Ok (window_label df backcandles r))
    /\ (r <> row -> getitem s1 r = getitem s r).
Proof.
  intros Hrow Hrow0 Hlen Hr Hs. rewrite ema_row_exact by assumption.
  eexists. split; [reflexivity|].
  destruct (Z.eqb_spec (window_label df backcandles row) 0) as [E|E].
  - split; [exact Hlen|]. split; [|reflexivity].
    intros ->. destruct Hs as [Hs | Hs]; rewrite Hs; congruence.
  - split; [now rewrite set_nth_length|]. split.
    + intros ->. apply getitem_ok. split; [lia|]. apply set_nth_same.
      unfold len in *. lia.
    + intros Hne. unfold getitem. rewrite set_nth_other by lia. reflexivity.
Qed.

Lemma ema_loop_labels (df : Frame) (backcandles : Z) (rows : list Z) :
  0 <= backcandles ->
  Forall (fun row => backcandles <= row < len df) rows ->
  forall s,
    length s = length df ->
    (forall r, 0 <= r < len df ->
               getitem s r = Ok 0
               \/ getitem s r = Ok (window_label df backcandles r)) ->
    exists out,
      for_each rows (ema_row df backcandles) s = Ok out
      /\ length out = length df
      /\ forall r, 0 <= r < len df ->
           getitem out r
           = if existsb (Z.eqb r) rows
             then Ok (window_label df backcandles r)
             else getitem s r.
Proof.
  intros Hbc Hrows.
  induction Hrows as [|row rest Hrow _ IH]; intros s Hlen Hs.
  - exists s. cbn. auto.
  - assert (Hrow0 : 0 <= row) by lia.
    cbn [for_each]. rewrite ema_row_exact by assumption. cbn [bind].
    set (s1 := if window_label df backcandles row =? 0 then s
               else set_nth s (Z.to_nat row) (window_label df backcandles row)).
    assert (Hstep : forall r, 0 <= r < len df ->
              (r = row -> getitem s1 r = Ok (window_label df backcandles r))
              /\ (r <> row -> getitem s1 r = getitem s r)).
    { intros r Hr.
      destruct (ema_row_reads df backcandles row s r Hrow Hrow0 Hlen Hr (Hs r Hr))
        as (s1' & Hs1' & _ & Heq & Hne).
      rewrite ema_row_exact in Hs1' by assumption.
      injection Hs1' as <-. auto. }
    assert (Hlen1 : length s1 = length df)
      by (subst s1; destruct (_ =? 0); rewrite ?set_nth_length; exact Hlen).
    destruct (IH s1 Hlen1) as (out & Hrun & Hlen' & Hout).
    + intros r Hr. destruct (Z.eq_dec r row) as [E|E].
      * right. now apply Hstep.
      * rewrite (proj2 (Hstep r Hr) E). auto.
    + exists out. split; [exact Hrun|]. split; [exact Hlen'|].
      intros r Hr. rewrite (Hout r Hr). cbn [existsb].
      destruct (existsb (Z.eqb r) rest); [now rewrite orb_true_r|].
      rewrite orb_false_r. destruct (Z.eqb_spec r row) as [E|E].
      * now apply Hstep.
      * now apply Hstep.
Qed.

(** X19.  Over any rows whose windows lie within the series, in any
    order and with repetitions, the outer loop of the classifier leaves
    at each row it visited the label of that row's own window, and 0 at
    every other row. *)
Theorem classifier_loop_labels (df : Frame) (backcandles : Z) (rows : list Z) :
  0 <= backcandles ->
  Forall (fun row => backcandles <= row < len df) rows ->
  exists out,
    for_each rows (ema_row df backcandles) (repeat 0 (length df)) = Ok out
    /\ forall r, 0 <= r < len df ->
         getitem out r
         = Ok (if existsb (Z.eqb r) rows
               then window_label df backcandles r
               else 0).
Proof.
  intros Hbc Hrows.
  destruct (ema_loop_labels df backcandles rows Hbc Hrows
              (repeat 0 (length df)))
    as (out & Hrun & _ & Hout).
  - apply repeat_length.
  - intros r Hr. left. apply getitem_repeat. unfold len in Hr. lia.
  - exists out. split; [exact Hrun|]. intros r Hr. rewrite (Hout r Hr).
    destruct (existsb (Z.eqb r) rows); [reflexivity|].
    apply getitem_repeat. unfold len in Hr. lia.
Qed.

Lemma classifier_loop_labels_witness :
  exists out,
    for_each [9; 8; 9] (ema_row ten_bars 8) (repeat 0 (length ten_bars)) = Ok out
    /\ getitem out 8 = Ok StrongUptrend
    /\ getitem out 3 = Ok 0.
Proof.
  destruct (classifier_loop_labels ten_bars 8 [9; 8; 9]) as (out & Hrun & Hout);
    [lia | unfold len; cbn; repeat constructor; lia |].
  exists out. split; [exact Hrun|]. split.
  - rewrite (Hout 8) by (unfold len; cbn; lia). reflexivity.
  - rewrite (Hout 3) by (unfold len; cbn; lia). reflexivity.
Defined.

(* ================================================================= *)
(** ** Further properties of the combiner *)

Lemma filter_of_map {A B} (p : B -> bool) (g : A -> B) (l : list A) :
  filter p (map g l) = map g (filter (fun a => p (g a)) l).
Proof.
  induction l as [|a rest IH]; cbn; [reflexivity|].
  destruct (p (g a)); cbn; now rewrite IH.
Qed.

Lemma filter_twice {A} (p : A -> bool) (l : list A) :
  filter p (filter p l) = filter p l.
Proof.
  induction l as [|a rest IH]; cbn; [reflexivity|].
  destruct (p a) eqn:E; cbn; rewrite ?E, IH; reflexivity.
Qed.

Lemma filter_all {A} (p : A -> bool) (l : list A) :
  Forall (fun a => p a = true) l -> filter p l = l.
Proof.
  induction 1 as [|a rest Ha _ IH]; cbn; [reflexivity|].
  now rewrite Ha, IH.
Qed.

(** The rows [generate_total_signal] returns are the rows without
    undefined value, each with its signal. *)
Lemma generate_total_signal_rows (df : list SigBar)
    (rsi_oversold rsi_overbought : float) :
  generate_total_signal df rsi_oversold rsi_overbought
  = Ok (map (fun s => mkRow s (signal_of rsi_oversold rsi_overbought s))
          (filter (fun s => negb (has_nan (bar s))) df)).
Proof.
  rewrite generate_total_signal_spec. unfold dropna.
  now rewrite filter_of_map.
Qed.

(** X6.  [generate_total_signal] never raises.  It returns at most as
    many rows as it is given, every signal is 0, 1 or 2, the rows
    returned are the rows given that hold no undefined value, in their
    order, and a frame without undefined value comes back whole. *)
Theorem total_signal_rows_and_values (df : list SigBar)
    (rsi_oversold rsi_overbought : float) :
  exists out,
    generate_total_signal df rsi_oversold rsi_overbought = Ok out
    /\ (length out <= length df)%nat
    /\ Forall (fun r => TotSignal r = 0 \/ TotSignal r = 1 \/ TotSignal r = 2)
              out
    /\ map sbar out = filter (fun s => negb (has_nan (bar s))) df
    /\ (Forall (fun s => has_nan (bar s) = false) df -> map sbar out = df).
Proof.
  rewrite generate_total_signal_rows. eexists. split; [reflexivity|].
  assert (Hrows : forall l : list SigBar,
            map sbar (map (fun s => mkRow s (signal_of rsi_oversold
                                               rsi_overbought s)) l) = l).
  { intros l. rewrite map_map. cbn [sbar]. apply map_id. }
  split; [|split; [|split]].
  - rewrite length_map. apply filter_length_le.
  - apply Forall_forall. intros r Hr.
    apply in_map_iff in Hr as (s & <- & _). cbn [TotSignal].
    unfold signal_of, combined.
    destruct ((EMAsignal s =? 2) && le (RSI (bar s)) rsi_oversold); auto.
    destruct ((EMAsignal s =? 1) && ge (RSI (bar s)) rsi_overbought); auto.
  - apply Hrows.
  - intros Hclean. rewrite Hrows. apply filter_all.
    eapply Forall_impl; [|exact Hclean]. cbn beta. intros s Hs. now rewrite Hs.
Qed.

Lemma total_signal_rows_and_values_witness :
  exists out,
    generate_total_signal [mkSigBar bar_above 2; mkSigBar bar_below 1]
                          (Fin 10) (Fin 90) = Ok out
    /\ map sbar out = [mkSigBar bar_above 2; mkSigBar bar_below 1].
Proof.
  destruct (total_signal_rows_and_values
              [mkSigBar bar_above 2; mkSigBar bar_below 1] (Fin 10) (Fin 90))
    as (out & Hrun & _ & _ & _ & Hwhole).
  exists out. split; [exact Hrun|]. apply Hwhole.
  repeat constructor.
Defined.

(** X7.  Running [generate_total_signal] again on the rows it returned
    gives the same rows: nothing more is dropped and no signal
    changes. *)
Theorem total_signal_idempotent (df : list SigBar)
    (rsi_oversold rsi_overbought : float) (out : list Row) :
  generate_total_signal df rsi_oversold rsi_overbought = Ok out ->
  generate_total_signal (map sbar out) rsi_oversold rsi_overbought = Ok out.
Proof.
  rewrite generate_total_signal_rows. intros [= <-].
  rewrite generate_total_signal_rows, map_map. cbn [sbar].
  rewrite map_id, filter_twice. reflexivity.
Qed.

Lemma total_signal_idempotent_witness :
  generate_total_signal
    (map sbar [mkRow (mkSigBar bar_below 1) 1])
    (Fin 10) (Fin 90)
  = Ok [mkRow (mkSigBar bar_below 1) 1].
Proof.
  apply (total_signal_idempotent
           [mkSigBar bar_warmup 3; mkSigBar bar_below 1] (Fin 10) (Fin 90)).
  reflexivity.
Defined.

(* ================================================================= *)
(** ** Loading and trimming *)

(** X8.  [load_and_preprocess_data] leaves no row whose volume is zero,
    keeps every row whose volume is undefined (missing values are only
    reported), returns a frame without zero volume unchanged, and applied
    to its own result changes nothing. *)
Theorem zero_volume_rows_removed {R} (volume : R -> float) (csv : list R) :
  Forall (fun r => eqb (volume r) (Fin 0) = false)
         (load_and_preprocess_data volume csv)
  /\ (forall r, In r csv -> is_nan (volume r) = true ->
                In r (load_and_preprocess_data volume csv))
  /\ (Forall (fun r => eqb (volume r) (Fin 0) = false) csv ->
      load_and_preprocess_data volume csv = csv)
  /\ load_and_preprocess_data volume (load_and_preprocess_data volume csv)
     = load_and_preprocess_data volume csv.
Proof.
  unfold load_and_preprocess_data. split; [|split; [|split]].
  - apply Forall_forall. intros r Hr. apply filter_In in Hr as [_ Hr].
    now apply negb_true_iff in Hr.
  - intros r Hr Hnan. apply filter_In. split; [exact Hr|].
    destruct (volume r); try discriminate. reflexivity.
  - intros Hall. apply filter_all.
    eapply Forall_impl; [|exact Hall]. cbn beta. intros r Hr. now rewrite Hr.
  - apply filter_twice.
Qed.

Lemma zero_volume_rows_removed_witness :
  load_and_preprocess_data Volume
    [bar_above; mkBar (Fin 1) (Fin 1) (Fin 1) (Fin 1) (Fin 0) NaN NaN NaN;
     mkBar (Fin 1) (Fin 1) (Fin 1) (Fin 1) NaN NaN NaN NaN]
  = [bar_above; mkBar (Fin 1) (Fin 1) (Fin 1) (Fin 1) NaN NaN NaN NaN]
  /\ In (mkBar (Fin 1) (Fin 1) (Fin 1) (Fin 1) NaN NaN NaN NaN)
        (load_and_preprocess_data Volume
           [bar_above;
            mkBar (Fin 1) (Fin 1) (Fin 1) (Fin 1) (Fin 0) NaN NaN NaN;
            mkBar (Fin 1) (Fin 1) (Fin 1) (Fin 1) NaN NaN NaN NaN]).
Proof.
  split; [reflexivity|].
  apply (zero_volume_rows_removed Volume); [|reflexivity].
  right. right. left. reflexivity.
Defined.

Lemma firstn_clipped {R} (df : list R) (k : Z) :
  firstn (Z.to_nat (Z.min k (len df))) df = firstn (Z.to_nat k) df.
Proof.
  unfold len. destruct (Z.le_gt_cases k (Z.of_nat (length df))) as [H | H].
  - now rewrite Z.min_l by lia.
  - rewrite Z.min_r by lia. rewrite Nat2Z.id.
    rewrite firstn_all. symmetry. apply firstn_all2. lia.
Qed.

Lemma prepare_unfold {R} (df : list R) (months : Z) :
  prepare_backtest_data df months
  = firstn (Z.to_nat (slice_bound (len df) (96 * months))) df.
Proof.
  unfold prepare_backtest_data, py_slice.
  replace (0 + 24 * 4 * months) with (96 * months) by lia.
  assert (H0 : slice_bound (len df) 0 = 0)
    by (unfold slice_bound, len; cbn; lia).
  rewrite H0, Z.sub_0_r. reflexivity.
Qed.

(** X9.  [prepare_backtest_data] returns the first rows of the frame, in
    their order: the first [96 * months] of them, or all of them when the
    frame is shorter, for a non-negative [months]; for a negative
    [months] the slice bound counts from the end, and all rows but the
    last [96 * |months|] are returned. *)
Theorem backtest_rows_are_first_rows {R} (df : list R) (months : Z) :
  (exists rest, df = prepare_backtest_data df months ++ rest)
  /\ (0 <= months ->
      prepare_backtest_data df months = firstn (Z.to_nat (96 * months)) df
      /\ len (prepare_backtest_data df months) = Z.min (len df) (96 * months))
  /\ (months < 0 ->
      len (prepare_backtest_data df months) = Z.max 0 (len df + 96 * months)).
Proof.
  rewrite !prepare_unfold. split; [|split].
  - eexists. symmetry. apply firstn_skipn.
  - intros Hm. unfold slice_bound.
    replace (96 * months <? 0) with false by (symmetry; apply Z.ltb_ge; lia).
    rewrite firstn_clipped. split; [reflexivity|].
    unfold len. rewrite length_firstn. lia.
  - intros Hm. unfold slice_bound.
    replace (96 * months <? 0) with true by (symmetry; apply Z.ltb_lt; lia).
    unfold len. rewrite length_firstn. lia.
Qed.

Lemma backtest_rows_are_first_rows_witness :
  prepare_backtest_data [1; 2; 3] 30 = [1; 2; 3]
  /\ len (prepare_backtest_data (repeat 7 100%nat) 1) = 96
  /\ len (prepare_backtest_data (repeat 7 100%nat) (-1)) = 4.
Proof.
  destruct (backtest_rows_are_first_rows (repeat 7 100%nat) 1) as (_ & Hpos & _).
  destruct (backtest_rows_are_first_rows (repeat 7 100%nat) (-1))
    as (_ & _ & Hneg).
  split; [reflexivity|]. split.
  - rewrite (proj2 (Hpos ltac:(lia))). reflexivity.
  - rewrite (Hneg ltac:(lia)). reflexivity.
Defined.

(* ================================================================= *)
(** ** The calls of strategies 1 and 2 *)

(** X12.  Strategies 1 and 2 only ever enter: each bar makes one call at
    most, that call is an entry order, and there is none on a bar with a
    trade open or with a signal other than 1 and 2.  Closing a trade is
    left to its stop and its target. *)
Theorem fixed_and_atr_only_enter (var : Variant) (mysize : float) (v : View) :
  var = FixedSLTP \/ var = ATRBased ->
  (length (snd (next var mysize v)) <= 1)%nat
  /\ Forall (fun c => is_entry c = true) (snd (next var mysize v))
  /\ (trades v <> [] \/ (signal1 v <> 1 /\ signal1 v <> 2) ->
      snd (next var mysize v) = []).
Proof.
  intros Hvar.
  assert (Hcase : no_trade v = false \/ no_trade v = true)
    by (destruct (no_trade v); auto).
  assert (Hopen : trades v <> [] -> no_trade v = false).
  { intros H. destruct (no_trade v) eqn:E; [|reflexivity].
    apply no_trade_iff in E. contradiction. }
  destruct Hvar as [-> | ->]; cbn [next];
    unfold Strategy1_next, Strategy2_next;
    destruct (Z.eqb_spec (signal1 v) 2) as [E2|E2];
    destruct (Z.eqb_spec (signal1 v) 1) as [E1|E1];
    destruct (no_trade v) eqn:En; cbn [andb snd length];
    repeat split; try lia; repeat constructor;
    try (intros [H | [H1 H2]];
         [apply Hopen in H; discriminate | congruence]).
Qed.

Lemma fixed_and_atr_only_enter_witness :
  snd (next ATRBased initsize view_open) = []
  /\ (length (snd (next FixedSLTP initsize view_entry)) <= 1)%nat.
Proof.
  split.
  - apply (fixed_and_atr_only_enter ATRBased initsize view_open);
      [now right | left; discriminate].
  - apply (fixed_and_atr_only_enter FixedSLTP initsize view_entry). now left.
Defined.

(* ================================================================= *)
(** ** The calls of strategy 3 *)

Lemma manage_all_calls (v : View) (ts : list Trade) :
  forall k c,
    In c (manage_all v k ts) <->
    exists j t, nth_error ts j = Some t /\ In c (manage v (k + j) t).
Proof.
  induction ts as [|t rest IH]; intros k c; cbn [manage_all].
  - split; [contradiction|]. intros ([|j] & t & H & _); discriminate.
  - rewrite in_app_iff, IH. split.
    + intros [H | (j & t' & Hj & H)].
      * exists O, t. rewrite Nat.add_0_r. auto.
      * exists (S j), t'. rewrite Nat.add_succ_r. auto.
    + intros ([|j] & t' & Hj & H); cbn in Hj.
      * injection Hj as <-. rewrite Nat.add_0_r in H. now left.
      * right. exists j, t'. rewrite Nat.add_succ_r in H. auto.
Qed.

Lemma Strategy3_managed (mysize : float) (v : View) (c : Call) :
  is_entry c = false ->
  In c (snd (Strategy3_next mysize v)) <-> In c (manage_all v 0 (trades v)).
Proof.
  intros Hc. unfold Strategy3_next.
  destruct ((signal1 v =? 2) && no_trade v);
    [|destruct ((signal1 v =? 1) && no_trade v)]; cbn [snd];
    rewrite ?in_app_iff; cbn [In]; split; auto;
    intros [H | [<- | []]]; auto; discriminate.
Qed.

(** X13.  On every bar strategy 3 assigns a stop to each open trade: the
    trailed stop of its side.  It closes a trade exactly when the signal
    is the opposite of the trade: Sell (1) for a long trade, Buy (2) for
    a short one. *)
Theorem trailing_manages_every_trade (mysize : float) (v : View) :
  (forall n x,
      In (set_sl n x) (snd (Strategy3_next mysize v)) <->
      exists t, nth_error (trades v) n = Some t
                /\ x = if is_long t
                       then long_stop (sl t) (close_last v) (atr_last v)
                       else short_stop (sl t) (close_last v) (atr_last v))
  /\ (forall n,
        In (close_trade n) (snd (Strategy3_next mysize v)) <->
        exists t, nth_error (trades v) n = Some t
                  /\ (is_long t = true /\ signal1 v = 1
                      \/ is_long t = false /\ signal1 v = 2)).
Proof.
  split; intros n; [intros x|];
    rewrite Strategy3_managed by reflexivity;
    rewrite manage_all_calls; cbn [Nat.add]; unfold manage; split.
  - intros (j & t & Hj & Hin). destruct (is_long t) eqn:El;
      destruct Hin as [[= <- <-] | Hin];
      try (exists t; rewrite El; split; [exact Hj | reflexivity]).
    + destruct (signal1 v =? 1); [destruct Hin as [[=] | []] | destruct Hin].
    + destruct (signal1 v =? 2); [destruct Hin as [[=] | []] | destruct Hin].
  - intros (t & Hn & ->). exists n, t. split; [exact Hn|].
    destruct (is_long t); left; reflexivity.
  - intros (j & t & Hj & Hin). destruct (is_long t) eqn:El;
      destruct Hin as [[=] | Hin].
    + destruct (Z.eqb_spec (signal1 v) 1) as [E|E];
        [destruct Hin as [[= <-] | []] | destruct Hin].
      exists t. auto.
    + destruct (Z.eqb_spec (signal1 v) 2) as [E|E];
        [destruct Hin as [[= <-] | []] | destruct Hin].
      exists t. auto.
  - intros (t & Hn & [[El Es] | [El Es]]); exists n, t;
      (split; [exact Hn|]); rewrite El, Es; right; left; reflexivity.
Qed.

Lemma trailing_manages_every_trade_witness :
  In (close_trade 0)
     (snd (Strategy3_next initsize
             (mkView 1 (Fin (11 # 10)) (Fin (1 # 1000)) [long_trade] []))).
Proof.
  apply (proj2 (trailing_manages_every_trade initsize
                  (mkView 1 (Fin (11 # 10)) (Fin (1 # 1000)) [long_trade] []))).
  exists long_trade. split; [reflexivity|]. left. split; reflexivity.
Defined.

(** X14.  An entry order of strategy 3 never carries a target: it is made
    only on a bar with no trade open, a Buy on signal 2 with the stop
    [close - 1.5 * ATR], a Sell on signal 1 with the stop
    [close + 1.5 * ATR], at the unchanged size. *)
Theorem trailing_entry_has_no_target (mysize : float) (v : View)
    (stop target : option float) (size : float) :
  (In (buy stop target size) (snd (Strategy3_next mysize v)) ->
   target = None /\ signal1 v = 2 /\ trades v = [] /\ size = mysize
   /\ stop = Some (sub (close_last v) (mul (Fin (15 # 10)) (atr_last v))))
  /\ (In (sell stop target size) (snd (Strategy3_next mysize v)) ->
      target = None /\ signal1 v = 1 /\ trades v = [] /\ size = mysize
      /\ stop = Some (add (close_last v) (mul (Fin (15 # 10)) (atr_last v)))).
Proof.
  assert (Hm : forall c, is_entry c = true ->
                         ~ In c (manage_all v 0 (trades v))).
  { intros c Hc Hin.
    assert (Hf : In c (filter is_entry (manage_all v 0 (trades v))))
      by (apply filter_In; auto).
    now rewrite manage_all_no_entry in Hf. }
  unfold Strategy3_next, trail.
  destruct (Z.eqb_spec (signal1 v) 2) as [E2|E2];
    destruct (Z.eqb_spec (signal1 v) 1) as [E1|E1];
    destruct (no_trade v) eqn:En; cbn [andb snd];
    try apply no_trade_iff in En;
    split; intros Hin; try apply in_app_iff in Hin;
    try (exfalso; eapply Hm; [|exact Hin]; reflexivity);
    destruct Hin as [Hin | [[= <- <- <-] | []]];
    try (exfalso; eapply Hm; [|exact Hin]; reflexivity);
    repeat split; auto; lia.
Qed.

Lemma trailing_entry_has_no_target_witness :
  In (buy (Some (sub (Fin (11 # 10)) (mul (Fin (15 # 10)) (Fin (1 # 1000)))))
          None initsize)
     (snd (Strategy3_next initsize view_entry))
  /\ signal1 view_entry = 2
  /\ trades view_entry = [].
Proof.
  assert (Hin : In (buy (Some (sub (Fin (11 # 10))
                                  (mul (Fin (15 # 10)) (Fin (1 # 1000)))))
                        None initsize)
                   (snd (Strategy3_next initsize view_entry)))
    by (left; reflexivity).
  split; [exact Hin|].
  destruct (proj1 (trailing_entry_has_no_target initsize view_entry _ _ _) Hin)
    as (_ & Hs & Ht & _).
  split; assumption.
Defined.

(** X15.  An undefined ATR never moves a stop that is a price: the
    trailed stop of a long and of a short trade is the stop already held,
    and so it is when the close is undefined. *)
Theorem undefined_atr_keeps_stop (s close atr : float) :
  is_price s = true ->
  is_nan atr = true \/ is_nan close = true ->
  long_stop (Some s) close atr = s
  /\ short_stop (Some s) close atr = s.
Proof.
  intros Hs Hnan. unfold long_stop, short_stop, trail.
  rewrite !(price_or s _ Hs).
  assert (Hsub : sub close (mul (Fin (15 # 10)) atr) = NaN
                 /\ add close (mul (Fin (15 # 10)) atr) = NaN).
  { destruct Hnan as [H | H].
    - destruct atr; try discriminate. destruct close; split; reflexivity.
    - destruct close; try discriminate. split; reflexivity. }
  destruct Hsub as [-> ->]. unfold max, min, gt.
  destruct s; split; reflexivity.
Qed.

Lemma undefined_atr_keeps_stop_witness :
  long_stop (Some (Fin 1)) (Fin (11 # 10)) NaN = Fin 1
  /\ short_stop (Some (Fin 1)) (Fin (11 # 10)) NaN = Fin 1.
Proof.
  apply (undefined_atr_keeps_stop (Fin 1) (Fin (11 # 10)) NaN);
    [reflexivity | now left].
Defined.

(* ================================================================= *)
(** ** The size of strategy 1 *)

Lemma two_to_positive (d : nat) : (1 <= two_to d)%Q.
Proof.
  induction d as [|d IH]; cbn [two_to]; [apply Qle_refl | lra].
Qed.

(** X16.  The size of strategy 1 never falls below [initsize] (0.2). *)
Theorem size_at_least_initsize (views : list View) :
  le initsize (size_after views) = true.
Proof.
  destruct (size_after_from views O (2 # 10)) as (q & Hq & Heq);
    [cbn [two_to]; ring|].
  unfold size_after, initsize. rewrite Hq. cbn [le].
  apply Qle_bool_iff. rewrite Heq.
  pose proof (two_to_positive
                (fold_left (fun d v => match sizing v with
                                       | Doubled => S d
                                       | Rebased => O
                                       | Kept => d
                                       end) views O)).
  lra.
Qed.

Lemma doubling_bars_from (views : list View) :
  Forall (fun v => sizing v = Doubled) views ->
  forall q, exists q',
    fold_left martingale views (Fin q) = Fin q'
    /\ (q' == q * two_to (length views))%Q.
Proof.
  induction 1 as [|v rest Hv _ IH]; intros q; cbn [fold_left length two_to].
  - exists q. split; [reflexivity | ring].
  - unfold martingale at 2. rewrite Hv. cbn [mul].
    destruct (IH (q * 2)%Q) as (q' & Hq' & Heq).
    exists q'. split; [exact Hq'|]. rewrite Heq. ring.
Qed.

(** X17.  The size is doubled on every bar with an active signal, no
    trade open and a loss as last closed trade, not once for each losing
    trade: [n] such bars in a row, from the start, bring it to
    [initsize * 2 ** n], even when the last closed trade is the same on
    all of them (an entry order that opened no trade). *)
Theorem size_doubles_on_every_signal_bar (views : list View) :
  Forall (fun v => signal1 v > 0 /\ trades v = []
                   /\ exists pl, last_pl v = Some pl /\ lt pl (Fin 0) = true)
         views ->
  exists q,
    size_after views = Fin q
    /\ (q == (2 # 10) * two_to (length views))%Q.
Proof.
  intros Hall. apply doubling_bars_from.
  eapply Forall_impl; [|exact Hall]. cbn beta. intros v Hv.
  now apply sizing_doubled.
Qed.

Lemma size_doubles_on_every_signal_bar_witness :
  exists q,
    size_after [view_after_loss; view_after_loss; view_after_loss] = Fin q
    /\ (q == 16 # 10)%Q.
Proof.
  destruct (size_doubles_on_every_signal_bar
              [view_after_loss; view_after_loss; view_after_loss])
    as (q & Hq & Heq).
  - repeat constructor; try reflexivity;
      exists (Fin (- (9 # 10000))); split; reflexivity.
  - exists q. split; [exact Hq|]. rewrite Heq. reflexivity.
Defined.

(** X18.  On a bar with a Buy or Sell signal and no trade open, the
    entry order of strategy 1 has twice the previous size when the last
    closed trade lost, [initsize] when it won, and the previous size when
    it broke even or when no trade was closed yet; the strategy holds
    that size after the bar. *)
Theorem entry_size_after_loss_and_win (mysize : float) (v : View) :
  signal1 v = 1 \/ signal1 v = 2 ->
  trades v = [] ->
  exists stop target size,
    (Strategy1_next mysize v = (size, [buy stop target size])
     \/ Strategy1_next mysize v = (size, [sell stop target size]))
    /\ (forall pl, last_pl v = Some pl -> lt pl (Fin 0) = true ->
                   size = mul mysize (Fin 2))
    /\ (forall pl, last_pl v = Some pl -> gt pl (Fin 0) = true ->
                   size = initsize)
    /\ (forall pl, last_pl v = Some pl -> eqb pl (Fin 0) = true ->
                   size = mysize)
    /\ (last_pl v = None -> size = mysize).
Proof.
  intros Hsig Hopen.
  assert (Hno : no_trade v = true) by now apply no_trade_iff.
  assert (Hpos : (signal1 v >? 0) = true)
    by (apply Z.gtb_lt; destruct Hsig; lia).
  assert (Hsize : forall stop target,
            exists stop' target' size,
              ((martingale mysize v, [buy stop target (martingale mysize v)])
               = (size, [buy stop' target' size])
               \/ (martingale mysize v, [buy stop target (martingale mysize v)])
                  = (size, [sell stop' target' size]))
              /\ size = martingale mysize v)
    by (intros; do 3 eexists; split; [left|]; reflexivity).
  assert (Hsize' : forall stop target,
            exists stop' target' size,
              ((martingale mysize v, [sell stop target (martingale mysize v)])
               = (size, [buy stop' target' size])
               \/ (martingale mysize v, [sell stop target (martingale mysize v)])
                  = (size, [sell stop' target' size]))
              /\ size = martingale mysize v)
    by (intros; do 3 eexists; split; [right|]; reflexivity).
  assert (Hrun : exists stop target size,
             (Strategy1_next mysize v = (size, [buy stop target size])
              \/ Strategy1_next mysize v = (size, [sell stop target size]))
             /\ size = martingale mysize v).
  { unfold Strategy1_next. rewrite Hno.
    destruct Hsig as [Hs | Hs]; rewrite Hs; cbn [Z.eqb Pos.eqb andb];
      [apply Hsize' | apply Hsize]. }
  destruct Hrun as (stop & target & size & Hrun & ->).
  exists stop, target, (martingale mysize v). split; [exact Hrun|].
  unfold martingale, sizing. rewrite Hpos, Hno. cbn [andb].
  repeat split.
  - intros pl -> Hl. now rewrite Hl.
  - intros pl -> Hg. unfold gt in *. rewrite (lt_asym _ _ Hg), Hg. reflexivity.
  - intros pl -> He. unfold gt.
    destruct pl as [| | |p]; try discriminate. cbn in *.
    apply Qeq_bool_iff in He.
    assert (H1 : Qle_bool 0 p = true) by (apply Qle_bool_iff; lra).
    assert (H2 : Qle_bool p 0 = true) by (apply Qle_bool_iff; lra).
    now rewrite H1, H2.
  - intros ->. reflexivity.
Qed.

Lemma entry_size_after_loss_and_win_witness :
  exists stop target,
    Strategy1_next initsize view_after_loss
    = (mul initsize (Fin 2), [buy stop target (mul initsize (Fin 2))]).
Proof.
  destruct (entry_size_after_loss_and_win initsize view_after_loss)
    as (stop & target & size & Hrun & Hloss & _);
    [now right | reflexivity |].
  rewrite (Hloss (Fin (- (9 # 10000))) eq_refl eq_refl) in Hrun.
  exists stop, target. destruct Hrun as [Hrun | Hrun]; [exact Hrun|].
  vm_compute in Hrun. discriminate Hrun.
Defined.
